(** * DTU sentiment demo frontend: label mapping, metrics, external call, batch run

    A shallow embedding of [src/frontend/app.py]: the score-to-label mapping
    [score_to_label], the in-memory [Metrics] object with [record] and
    [snapshot], the wrapper [call_external_service] around one POST to the
    student-built service, and the endpoints [api_score], [api_batch] and
    [api_metrics].

    Python values are embedded as follows.
    - [float] is an IEEE-754 binary64 value, the Standard Library's
      [spec_float] at precision 53 and maximal exponent 1024; comparisons,
      products and quotients are the correctly rounded ones.
    - [int] is [Z].
    - [str] is [string].
    - an f-string is kept as the list of its parts ([message]): the literal
      text and, for every replacement field, the value and the conversion
      applied to it.
    - the module-level [metrics] object, the clock and the network are the
      [World] a computation of type [Py] runs in.
    - a response is built by [JSONResponse_init], which renders its content
      as the constructor of [JSONResponse] does and raises [ValueError] on
      a float that is a NaN or an infinity. *)

From Stdlib Require Import ZArith List String Ascii Bool Lia.
From Stdlib Require Import Floats.SpecFloat.
From Stdlib Require Import Sorting.Sorted Sorting.Permutation.
Import ListNotations.
Local Open Scope string_scope.
Local Open Scope list_scope.
Local Open Scope Z_scope.

(* ================================================================== *)
(** ** Python floats *)

Definition float : Type := spec_float.

Module F64.

Definition prec : Z := 53.
Definition emax : Z := 1024.

(** [float(z)] for an [int] that fits: the nearest double, ties to even.
    (CPython raises [OverflowError] where this yields an infinity; callers
    below test for it.) *)
Definition of_int (z : Z) : float := binary_normalize prec emax z 0 false.

Definition leb (x y : float) : bool := SFleb x y.
Definition ltb (x y : float) : bool := SFltb x y.
Definition geb (x y : float) : bool := SFleb y x.
Definition gtb (x y : float) : bool := SFltb y x.

Definition add (x y : float) : float := SFadd prec emax x y.
Definition sub (x y : float) : float := SFsub prec emax x y.
Definition mul (x y : float) : float := SFmul prec emax x y.

Definition is_nan (x : float) : bool :=
  match x with S754_nan => true | _ => false end.

Definition is_finite (x : float) : bool :=
  match x with S754_zero _ | S754_finite _ _ _ => true | _ => false end.

(** [int(x)]: truncation toward zero; [None] where CPython raises
    ([OverflowError] on an infinity, [ValueError] on a NaN). *)
Definition trunc (x : float) : option Z :=
  match x with
  | S754_zero _ => Some 0
  | S754_finite s m e =>
      let a := match e with
               | Zneg p => Z.shiftr (Zpos m) (Zpos p)
               | _ => Z.shiftl (Zpos m) e
               end in
      Some (if s then - a else a)
  | _ => None
  end.

(** The double nearest to [num * 2^e / den] (ties to even), [den > 0]. *)
Definition round_div (num e den : Z) : float :=
  match num with
  | Z0 => S754_zero false
  | Zpos p =>
      let '(q, e', l) := SFdiv_core_binary prec emax (Zpos p) e den 0 in
      binary_round_aux prec emax false q e' l
  | Zneg p =>
      let '(q, e', l) := SFdiv_core_binary prec emax (Zpos p) e den 0 in
      binary_round_aux prec emax true q e' l
  end.

(** The literals of the source. *)
Definition zero : float := S754_zero false.
Definition one : float := S754_finite false 4503599627370496 (-52).
Definition lit_0_95 : float := S754_finite false 8556839292003942 (-53).
Definition lit_1000 : float := S754_finite false 8796093022208000 (-43).
Definition lit_4 : float := S754_finite false 4503599627370496 (-50).

(** Exact dyadic numbers [m * 2^e], for sums without rounding. *)
Definition dyadic : Type := Z * Z.

Definition dy_of_float (x : float) : dyadic :=
  match x with
  | S754_finite s m e => (if s then Zneg m else Zpos m, e)
  | _ => (0, 0)
  end.

Definition dy_add (a b : dyadic) : dyadic :=
  let e := Z.min (snd a) (snd b) in
  (fst a * 2 ^ (snd a - e) + fst b * 2 ^ (snd b - e), e).

Definition dy_sum (xs : list float) : dyadic :=
  fold_left (fun acc x => dy_add acc (dy_of_float x)) xs (0, 0).

End F64.

(* ================================================================== *)
(** ** Formatted text *)

(** One part of an f-string. *)
Inductive fragment : Type :=
| Lit (s : string)                  (* literal text, or [{s}] of a [str] *)
| FmtInt (z : Z)                    (* [{z}] of an [int] *)
| FmtFloat (x : float)              (* [{x}] of a [float] *)
| FmtFixed1 (x : float)             (* [{x:.1f}] *)
| ReprStr (s : string)              (* [{s!r}] of a [str] *)
| ReprList (ks : list string).      (* [{ks!r}] of a list of [str] *)

Definition message : Type := list fragment.

(* ================================================================== *)
(** ** Exceptions *)

(** What the [except] clauses of [call_external_service] tell apart:
    [httpx.TimeoutException] (itself an [httpx.RequestError]), the other
    [httpx.RequestError]s, and every other [Exception]. *)
Inductive exn_class : Type := TimeoutException | RequestError | OtherException.

Record exn : Type := Raise {
  exn_class_of : exn_class;
  exn_type : string;                (* [type(e).__name__] *)
  exn_text : message                (* [str(e)] *)
}.

Definition result (A : Type) : Type := (exn + A)%type.

(** Built-in exceptions; the texts are CPython 3.11's and no statement below
    depends on them. *)
Definition TypeError (m : message) : exn := Raise OtherException "TypeError" m.
Definition ValueError (m : message) : exn := Raise OtherException "ValueError" m.
Definition OverflowError (m : message) : exn := Raise OtherException "OverflowError" m.
Definition AttributeError (m : message) : exn := Raise OtherException "AttributeError" m.
Definition IndexError (m : message) : exn := Raise OtherException "IndexError" m.
Definition ZeroDivisionError (m : message) : exn := Raise OtherException "ZeroDivisionError" m.
Definition StatisticsError (m : message) : exn := Raise OtherException "StatisticsError" m.

(* ================================================================== *)
(** ** Library functions on numbers and lists *)

(** [a / b] on two [int]s: the correctly rounded quotient, and an
    [OverflowError] where it is beyond the doubles. *)
Definition int_truediv (a b : Z) : result float :=
  match b with
  | Z0 => inl (ZeroDivisionError [Lit "division by zero"])
  | _ =>
      let q := match b with
               | Zneg _ => F64.round_div (- a) 0 (- b)
               | _ => F64.round_div a 0 b
               end in
      if F64.is_finite q then inr q
      else inl (OverflowError [Lit "integer division result too large for a float"])
  end.

(** [statistics.mean] on a list of floats. Finite data are summed exactly
    and the quotient is rounded once; when a value is infinite or a NaN the
    result is the float sum of those values. *)
Definition mean (xs : list float) : result float :=
  match xs with
  | [] => inl (StatisticsError [Lit "mean requires at least one data point"])
  | _ :: _ =>
      match filter (fun x => negb (F64.is_finite x)) xs with
      | [] =>
          let '(m, e) := F64.dy_sum xs in
          inr (F64.round_div m e (Z.of_nat (List.length xs)))
      | x :: rest => inr (fold_left F64.add rest x)
      end
  end.

(** [sorted] on floats: a stable sort by [<] (insertion of each element
    behind the elements that are not greater). On floats without a NaN,
    [<] is a strict weak order and this is the list any stable sort
    returns; with a NaN in the list the order CPython leaves depends on the
    comparisons its merge sort happens to make, and the statements about
    the order take a log without NaN. *)
Fixpoint insort (x : float) (l : list float) : list float :=
  match l with
  | [] => [x]
  | y :: l' => if F64.ltb x y then x :: l else y :: insort x l'
  end.

Definition sorted (l : list float) : list float :=
  fold_left (fun acc x => insort x acc) l [].

(** [xs[i]]: a negative index counts from the end. *)
Definition getitem (xs : list float) (i : Z) : result float :=
  let j := if i <? 0 then i + Z.of_nat (List.length xs) else i in
  match (if j <? 0 then None else nth_error xs (Z.to_nat j)) with
  | Some x => inr x
  | None => inl (IndexError [Lit "list index out of range"])
  end.

(* ================================================================== *)
(** ** Labels *)

(** [SentimentLabel = Literal["positive", "neutral", "negative"]]. *)
Inductive SentimentLabel : Type := positive | neutral | negative.

Definition label_str (l : SentimentLabel) : string :=
  match l with
  | positive => "positive"
  | neutral => "neutral"
  | negative => "negative"
  end.

(** [score_to_label] (app.py, lines 211-239). *)
Definition score_to_label (score : float) : SentimentLabel :=
  if F64.leb score (F64.of_int (-1)) then negative
  else if F64.geb score (F64.of_int 1) then positive
  else neutral.

(* ================================================================== *)
(** ** Metrics *)

(** The dataclass [Metrics] (app.py, lines 123-154). *)
Record Metrics : Type := {
  total_requests : Z;
  success_requests : Z;
  failed_requests : Z;
  latencies_ms : list float;
  last_latency_ms : option float
}.

(** [Metrics()]: every field at its default. *)
Definition Metrics_new : Metrics :=
  {| total_requests := 0;
     success_requests := 0;
     failed_requests := 0;
     latencies_ms := [];
     last_latency_ms := None |}.

(** [Metrics.record]: the object after the call. *)
Definition record (self : Metrics) (ok : bool) (latency_ms : float) : Metrics :=
  {| total_requests := total_requests self + 1;
     success_requests :=
       if ok then success_requests self + 1 else success_requests self;
     failed_requests :=
       if ok then failed_requests self else failed_requests self + 1;
     latencies_ms := latencies_ms self ++ [latency_ms];
     last_latency_ms := Some latency_ms |}.

(** The dictionary [snapshot] returns, one field per key. *)
Record Snapshot : Type := {
  snap_total_requests : Z;
  snap_success_requests : Z;
  snap_failed_requests : Z;
  snap_last_latency_ms : option float;
  snap_avg_latency_ms : option float;
  snap_p95_latency_ms : option float
}.

(** [int(x)] on a float. *)
Definition py_int (x : float) : result Z :=
  match F64.trunc x with
  | Some z => inr z
  | None =>
      if F64.is_nan x
      then inl (ValueError [Lit "cannot convert float NaN to integer"])
      else inl (OverflowError [Lit "cannot convert float infinity to integer"])
  end.

(** [x * k] for a float [x] and an [int] [k]: [k] is converted first. *)
Definition float_mul_int (x : float) (k : Z) : result float :=
  let y := F64.of_int k in
  if F64.is_finite y then inr (F64.mul x y)
  else inl (OverflowError [Lit "int too large to convert to float"]).

(** [int(0.95 * (len_xs - 1))] (line 146). *)
Definition p95_index (len_xs : Z) : result Z :=
  match float_mul_int F64.lit_0_95 (len_xs - 1) with
  | inl e => inl e
  | inr x => py_int x
  end.

(** [Metrics.snapshot] (lines 141-154). *)
Definition snapshot (self : Metrics) : result Snapshot :=
  let avg :=
    match latencies_ms self with
    | [] => inr None
    | _ :: _ =>
        match mean (latencies_ms self) with
        | inl e => inl e
        | inr a => inr (Some a)
        end
    end in
  let p95 :=
    if 20 <=? Z.of_nat (List.length (latencies_ms self)) then
      let xs := sorted (latencies_ms self) in
      match p95_index (Z.of_nat (List.length xs)) with
      | inl e => inl e
      | inr i =>
          match getitem xs i with
          | inl e => inl e
          | inr x => inr (Some x)
          end
      end
    else inr None in
  match avg, p95 with
  | inl e, _ => inl e
  | inr _, inl e => inl e
  | inr a, inr p =>
      inr {| snap_total_requests := total_requests self;
             snap_success_requests := success_requests self;
             snap_failed_requests := failed_requests self;
             snap_last_latency_ms := last_latency_ms self;
             snap_avg_latency_ms := a;
             snap_p95_latency_ms := p |}
  end.

(* ================================================================== *)
(** ** JSON values and the operations the wrapper applies to them *)

(** What [r.json()] can return. *)
#[local] Unset Elimination Schemes.
Inductive json : Type :=
| JNull
| JBool (b : bool)
| JInt (z : Z)
| JFloat (x : float)
| JStr (s : string)
| JList (l : list json)
| JDict (kv : list (string * json)).   (* keys in insertion order *)
#[local] Set Elimination Schemes.

Definition type_name (v : json) : string :=
  match v with
  | JNull => "NoneType"
  | JBool _ => "bool"
  | JInt _ => "int"
  | JFloat _ => "float"
  | JStr _ => "str"
  | JList _ => "list"
  | JDict _ => "dict"
  end.

(** [needle in hay] on two [str]s. *)
Fixpoint str_contains (needle hay : string) : bool :=
  match hay with
  | EmptyString => prefix needle hay
  | String _ hay' => prefix needle hay || str_contains needle hay'
  end.

Fixpoint dict_get (k : string) (kv : list (string * json)) : option json :=
  match kv with
  | [] => None
  | (k', v) :: kv' => if String.eqb k k' then Some v else dict_get k kv'
  end.

(** [k not in data]. *)
Definition py_not_in (k : string) (data : json) : result bool :=
  match data with
  | JDict kv => inr (negb (existsb (fun p => String.eqb k (fst p)) kv))
  | JList l =>
      inr (negb (existsb
                   (fun v => match v with JStr s => String.eqb k s | _ => false end)
                   l))
  | JStr s => inr (negb (str_contains k s))
  | _ => inl (TypeError [Lit "argument of type '"; Lit (type_name data);
                         Lit "' is not iterable"])
  end.

(** [data[k]] for a [str] [k]. *)
Definition subscript (data : json) (k : string) : result json :=
  match data with
  | JDict kv =>
      match dict_get k kv with
      | Some v => inr v
      | None => inl (Raise OtherException "KeyError" [ReprStr k])
      end
  | JList _ => inl (TypeError [Lit "list indices must be integers or slices, not str"])
  | JStr _ => inl (TypeError [Lit "string indices must be integers, not 'str'"])
  | _ => inl (TypeError [Lit "'"; Lit (type_name data);
                         Lit "' object is not subscriptable"])
  end.

(** [list(data.keys())]. *)
Definition keys (data : json) : result (list string) :=
  match data with
  | JDict kv => inr (map fst kv)
  | _ => inl (AttributeError [Lit "'"; Lit (type_name data);
                              Lit "' object has no attribute 'keys'"])
  end.

(** [s.rstrip("/")]. *)
Fixpoint rstrip_slash (s : string) : string :=
  match s with
  | EmptyString => EmptyString
  | String c s' =>
      match rstrip_slash s' with
      | EmptyString => if Ascii.eqb c "/" then EmptyString else String c EmptyString
      | t => String c t
      end
  end.

(* ================================================================== *)
(** ** The world outside the process *)

(** The [httpx.Response] as the wrapper reads it. *)
Record Response : Type := {
  r_status_code : Z;
  r_text : string;
  r_json : result json                (* what [r.json()] returns or raises *)
}.

(** How [client.post] ends. *)
Inductive post_result : Type :=
| Responded (r : Response)
| PostRaised (e : exn).

(** The environment of a run: the successive readings of
    [time.perf_counter()], the outcome of the successive POSTs (by rank,
    endpoint and text), and [float] on a [str] ([None] for [ValueError]). *)
Record Env : Type := {
  perf_counter_at : nat -> float;
  post_at : nat -> string -> string -> post_result;
  float_of_str : string -> option float
}.

(** The mutable state: the module-level [metrics], how many times the clock
    was read, and the requests sent so far (endpoint and text, oldest
    first). *)
Record World : Type := {
  metrics : Metrics;
  ticks : nat;
  posts : list (string * string)
}.

(** Computations in a world, which return or raise. *)
Definition Py (A : Type) : Type := World -> result A * World.

Definition ret {A : Type} (a : A) : Py A := fun w => (inr a, w).

Definition bind {A B : Type} (c : Py A) (k : A -> Py B) : Py B :=
  fun w =>
    match c w with
    | (inl e, w') => (inl e, w')
    | (inr a, w') => k a w'
    end.

Definition lift {A : Type} (r : result A) : Py A := fun w => (r, w).

Definition try_except {A : Type} (body : Py A) (handler : exn -> Py A) : Py A :=
  fun w =>
    match body w with
    | (inl e, w') => handler e w'
    | (inr a, w') => (inr a, w')
    end.

Declare Scope py_scope.
Delimit Scope py_scope with py.
Notation "x <- c ;; k" := (bind c (fun x => k))
  (at level 61, c at next level, right associativity) : py_scope.
Notation "c ;; k" := (bind c (fun _ => k))
  (at level 61, right associativity) : py_scope.
Local Open Scope py_scope.

(* ================================================================== *)
(** ** Requests, responses and rows *)

(** [debug_info], the dictionary [call_external_service] returns beside the
    score: ["latency_ms"] and ["endpoint"] are always set, ["error"] and
    ["warning"] on some branches. *)
Record Info : Type := {
  info_latency_ms : float;
  info_error : option message;
  info_warning : option message;
  info_endpoint : string
}.

Record ScoreRequest : Type := {
  score_service_url : string;
  score_text : string
}.

Record BatchRequest : Type := {
  service_url : string;
  dataset : list (list string)
}.

(** One entry of [rows_out]. The key ["error"] is set on the rows of failed
    calls only, to [info.get("error")]. *)
Record BatchRow : Type := {
  row_text : string;
  row_gold : string;
  row_score : option float;
  row_pred : option SentimentLabel;
  row_ok : bool;
  row_latency_ms : float;
  row_error : option (option message)
}.

(** The [content] of a [JSONResponse], by endpoint. *)
Inductive Content : Type :=
| Detail (detail : message)
| ScorePayload (score : float) (label : SentimentLabel) (latency_ms : float)
               (warning : option message)
| BatchPayload (n correct : Z) (accuracy avg_latency_ms : float)
               (rows : list BatchRow)
| MetricsPayload (s : Snapshot).

Record JSONResponse : Type := {
  status_code : Z;
  content : Content
}.

(** The floats [json.dumps] meets in a content. *)
Definition row_floats (r : BatchRow) : list float :=
  match row_score r with
  | Some s => [s; row_latency_ms r]
  | None => [row_latency_ms r]
  end.

Definition option_floats (o : option float) : list float :=
  match o with
  | Some x => [x]
  | None => []
  end.

Definition content_floats (c : Content) : list float :=
  match c with
  | Detail _ => []
  | ScorePayload score _ latency_ms _ => [score; latency_ms]
  | BatchPayload _ _ accuracy avg_latency_ms rows =>
      accuracy :: avg_latency_ms :: flat_map row_floats rows
  | MetricsPayload s =>
      option_floats (snap_last_latency_ms s) ++
      option_floats (snap_avg_latency_ms s) ++
      option_floats (snap_p95_latency_ms s)
  end.

(** [JSONResponse(status_code=status, content=c)]: the constructor renders
    the body at once, with [json.dumps(content, allow_nan=False)], which
    raises [ValueError] on a NaN or an infinity. The strings of a content
    are taken to be text that UTF-8 encodes. *)
Definition JSONResponse_init (status : Z) (c : Content) : result JSONResponse :=
  if forallb F64.is_finite (content_floats c)
  then inr {| status_code := status; content := c |}
  else inl (ValueError [Lit "Out of range float values are not JSON compliant"]).

(** The local variables of the loop of [api_batch]. *)
Record BatchVars : Type := {
  rows_out : list BatchRow;
  latencies : list float;
  correct : Z;
  n : Z
}.

Definition REQUEST_TIMEOUT_SECONDS : float := F64.lit_4.

(* ================================================================== *)
(** ** The wrapper and the endpoints *)

Section App.

Variable env : Env.

(** [time.perf_counter()]. *)
Definition perf_counter : Py float :=
  fun w =>
    (inr (perf_counter_at env (ticks w)),
     {| metrics := metrics w; ticks := S (ticks w); posts := posts w |}).

(** [await client.post(endpoint, json={"text": text})]. *)
Definition client_post (endpoint text : string) : Py Response :=
  fun w =>
    let w' := {| metrics := metrics w; ticks := ticks w;
                 posts := posts w ++ [(endpoint, text)] |} in
    match post_at env (List.length (posts w)) endpoint text with
    | Responded r => (inr r, w')
    | PostRaised e => (inl e, w')
    end.

(** [metrics.record(ok=ok, latency_ms=latency_ms)] on the module's object. *)
Definition metrics_record (ok : bool) (latency_ms : float) : Py unit :=
  fun w =>
    (inr tt,
     {| metrics := record (metrics w) ok latency_ms;
        ticks := ticks w; posts := posts w |}).

(** [(time.perf_counter() - t0) * 1000.0], the clock already read. *)
Definition elapsed_ms (t0 t : float) : float :=
  F64.mul (F64.sub t t0) F64.lit_1000.

(** [float(v)] on a JSON value. *)
Definition py_float (v : json) : result float :=
  match v with
  | JFloat x => inr x
  | JInt z =>
      let x := F64.of_int z in
      if F64.is_finite x then inr x
      else inl (OverflowError [Lit "int too large to convert to float"])
  | JBool b => inr (if b then F64.one else F64.zero)
  | JStr s =>
      match float_of_str env s with
      | Some x => inr x
      | None => inl (ValueError [Lit "could not convert string to float: ";
                                 ReprStr s])
      end
  | _ => inl (TypeError [Lit "float() argument must be a string or a real number, not '";
                         Lit (type_name v); Lit "'"])
  end.

(** The three [except] clauses (lines 295-329); [t0] is the first reading
    of the clock. *)
Definition on_exception (endpoint : string) (t0 : float) (e : exn)
  : Py (option float * Info) :=
  t <- perf_counter ;;
  let latency_ms := elapsed_ms t0 t in
  metrics_record false latency_ms ;;
  ret (None,
       {| info_latency_ms := latency_ms;
          info_error := Some
            match exn_class_of e with
            | TimeoutException =>
                [Lit "Timeout after "; FmtFixed1 REQUEST_TIMEOUT_SECONDS;
                 Lit "s while calling the external service. ";
                 Lit "This usually means the container is not running, the URL/port is wrong, or the model is too slow. ";
                 Lit "Try: (1) open the service docs at /docs, (2) verify /v1/sentiment exists, (3) reduce model size."]
            | RequestError =>
                [Lit "Could not reach the external service (network error). ";
                 Lit "Check the base URL and whether the container is running. ";
                 Lit "Details: "; Lit (exn_type e); Lit ": "] ++ exn_text e
            | OtherException =>
                [Lit "Unexpected error while calling/parsing the external service response. ";
                 Lit "Details: "; Lit (exn_type e); Lit ": "] ++ exn_text e
            end;
          info_warning := None;
          info_endpoint := endpoint |}).

(** [call_external_service] (lines 242-329). *)
Definition call_external_service (service_url text : string)
  : Py (option float * Info) :=
  let endpoint := (rstrip_slash service_url ++ "/v1/sentiment")%string in
  t0 <- perf_counter ;;
  try_except
    (r <- client_post endpoint text ;;
     t <- perf_counter ;;
     let latency_ms := elapsed_ms t0 t in
     if negb (r_status_code r =? 200) then
       metrics_record false latency_ms ;;
       ret (None,
            {| info_latency_ms := latency_ms;
               info_error := Some
                 [Lit "External service responded with HTTP ";
                  FmtInt (r_status_code r); Lit ". ";
                  Lit "Expected 200. Response body (truncated): ";
                  ReprStr (substring 0 200 (r_text r))];
               info_warning := None;
               info_endpoint := endpoint |})
     else
       data <- lift (r_json r) ;;
       missing <- lift (py_not_in "score" data) ;;
       if missing : bool then
         metrics_record false latency_ms ;;
         ks <- lift (keys data) ;;
         ret (None,
              {| info_latency_ms := latency_ms;
                 info_error := Some
                   [Lit "External service returned JSON without the required field 'score'. ";
                    Lit "Got keys: "; ReprList ks];
                 info_warning := None;
                 info_endpoint := endpoint |})
       else
         v <- lift (subscript data "score") ;;
         score <- lift (py_float v) ;;
         if negb (F64.leb (F64.of_int (-5)) score && F64.leb score (F64.of_int 5)) then
           metrics_record true latency_ms ;;
           ret (Some score,
                {| info_latency_ms := latency_ms;
                   info_error := None;
                   info_warning := Some
                     [Lit "Score "; FmtFloat score;
                      Lit " is outside expected range [-5, 5]."];
                   info_endpoint := endpoint |})
         else
           metrics_record true latency_ms ;;
           ret (Some score,
                {| info_latency_ms := latency_ms;
                   info_error := None;
                   info_warning := None;
                   info_endpoint := endpoint |}))
    (on_exception endpoint t0).

(** [api_score] (lines 779-795). *)
Definition api_score (req : ScoreRequest) : Py JSONResponse :=
  p <- call_external_service (score_service_url req) (score_text req) ;;
  let '(score, info) := p in
  match score with
  | None =>
      lift (JSONResponse_init 502
              (Detail match info_error info with
                      | Some m => m
                      | None => [Lit "Unknown error."]
                      end))
  | Some score =>
      lift (JSONResponse_init 200
              (ScorePayload score (score_to_label score)
                 (info_latency_ms info) (info_warning info)))
  end.

(** The body of the [for] loop of [api_batch] (lines 813-860), over the
    items still to visit: either the early [return] of a 400 response or the
    loop variables after the last item. *)
Fixpoint api_batch_loop (url : string) (items : list (list string))
  (vars : BatchVars) : Py (JSONResponse + BatchVars) :=
  match items with
  | [] => ret (inr vars)
  | item :: items' =>
      match item with
      | [text; gold] =>
          if negb (existsb (String.eqb gold) ["positive"; "neutral"; "negative"])
          then
            early <- lift (JSONResponse_init 400
                             (Detail
                                [Lit "Gold label must be positive/neutral/negative. Got: ";
                                 ReprStr gold])) ;;
            ret (inl early)
          else
            p <- call_external_service url text ;;
            let '(score, info) := p in
            let latency_ms := info_latency_ms info in
            let latencies' := latencies vars ++ [latency_ms] in
            match score with
            | None =>
                api_batch_loop url items'
                  {| rows_out := rows_out vars ++
                       [{| row_text := text; row_gold := gold;
                           row_score := None; row_pred := None;
                           row_ok := false; row_latency_ms := latency_ms;
                           row_error := Some (info_error info) |}];
                     latencies := latencies';
                     correct := correct vars;
                     n := n vars + 1 |}
            | Some score =>
                let pred := score_to_label score in
                let ok := String.eqb (label_str pred) gold in
                api_batch_loop url items'
                  {| rows_out := rows_out vars ++
                       [{| row_text := text; row_gold := gold;
                           row_score := Some score; row_pred := Some pred;
                           row_ok := ok; row_latency_ms := latency_ms;
                           row_error := None |}];
                     latencies := latencies';
                     correct := correct vars + (if ok then 1 else 0);
                     n := n vars + 1 |}
            end
      | _ =>
          early <- lift (JSONResponse_init 400
                           (Detail
                              [Lit "Dataset must be a list of [text, gold_label] pairs."])) ;;
          ret (inl early)
      end
  end.

(** [api_batch] (lines 798-873). *)
Definition api_batch (req : BatchRequest) : Py JSONResponse :=
  r <- api_batch_loop (service_url req) (dataset req)
         {| rows_out := []; latencies := []; correct := 0; n := 0 |} ;;
  match r with
  | inl early => ret early
  | inr vars =>
      accuracy <- (if n vars =? 0 then ret F64.zero
                   else lift (int_truediv (correct vars) (n vars))) ;;
      avg_latency <- (match latencies vars with
                      | [] => ret F64.zero
                      | _ :: _ => lift (mean (latencies vars))
                      end) ;;
      lift (JSONResponse_init 200
              (BatchPayload (n vars) (correct vars) accuracy avg_latency
                 (rows_out vars)))
  end.

(** [api_metrics] (lines 876-879). *)
Definition api_metrics : Py JSONResponse :=
  s <- (fun w => (snapshot (metrics w), w)) ;;
  lift (JSONResponse_init 200 (MetricsPayload s)).

End App.

(** The world at start-up: [metrics = Metrics()], nothing sent. *)
Definition World_new : World :=
  {| metrics := Metrics_new; ticks := 0%nat; posts := [] |}.

(* ================================================================== *)
(** ** Vocabulary of the statements *)

(** A sequence of calls to [record], oldest first. *)
Definition record_all (calls : list (bool * float)) (m : Metrics) : Metrics :=
  fold_left (fun m c => record m (fst c) (snd c)) calls m.

Definition count_ok (calls : list (bool * float)) : Z :=
  Z.of_nat (List.length (filter fst calls)).


(** The endpoint a call posts to. *)
Definition endpoint_of (service_url : string) : string :=
  (rstrip_slash service_url ++ "/v1/sentiment")%string.

(** How the next POST of the world [w] ends. *)
Definition sent (env : Env) (service_url text : string) (w : World) : post_result :=
  post_at env (List.length (posts w)) (endpoint_of service_url) text.

(** The latency a call that starts in [w] measures at its [k]-th reading of
    the clock after the first. *)
Definition latency_at (env : Env) (w : World) (k : nat) : float :=
  elapsed_ms (perf_counter_at env (ticks w)) (perf_counter_at env (k + ticks w)).

(** The world after a call that started in [w]: the metrics are [m], the
    clock was read [reads] times, one request was sent. *)
Definition world_after (service_url text : string) (w : World)
  (m : Metrics) (reads : nat) : World :=
  {| metrics := m;
     ticks := reads + ticks w;
     posts := posts w ++ [(endpoint_of service_url, text)] |}.

(** [-5 <= score <= 5] as the wrapper tests it. *)
Definition in_range (score : float) : bool :=
  F64.leb (F64.of_int (-5)) score && F64.leb score (F64.of_int 5).

(** The text an [except] clause puts under ["error"]. *)
Definition exception_text (e : exn) : message :=
  match exn_class_of e with
  | TimeoutException =>
      [Lit "Timeout after "; FmtFixed1 REQUEST_TIMEOUT_SECONDS;
       Lit "s while calling the external service. ";
       Lit "This usually means the container is not running, the URL/port is wrong, or the model is too slow. ";
       Lit "Try: (1) open the service docs at /docs, (2) verify /v1/sentiment exists, (3) reduce model size."]
  | RequestError =>
      [Lit "Could not reach the external service (network error). ";
       Lit "Check the base URL and whether the container is running. ";
       Lit "Details: "; Lit (exn_type e); Lit ": "] ++ exn_text e
  | OtherException =>
      [Lit "Unexpected error while calling/parsing the external service response. ";
       Lit "Details: "; Lit (exn_type e); Lit ": "] ++ exn_text e
  end.

(** The replies on which line 277 raises after line 272 has recorded the
    call: status 200 and a JSON list or string that does not hold
    ["score"]. *)
Definition keyless_without_score (p : post_result) : bool :=
  match p with
  | Responded r =>
      (r_status_code r =? 200) &&
      match r_json r with
      | inr (JList l) =>
          negb (existsb
                  (fun v => match v with
                            | JStr s => String.eqb "score" s
                            | _ => false
                            end) l)
      | inr (JStr s) => negb (str_contains "score" s)
      | _ => false
      end
  | PostRaised _ => false
  end.

(** A row is accepted by the two tests at the head of the loop body. *)
Definition valid_item (item : list string) : bool :=
  match item with
  | [_; gold] => existsb (String.eqb gold) ["positive"; "neutral"; "negative"]
  | _ => false
  end.

(** The items the loop visits before it meets an invalid one. *)
Fixpoint valid_prefix (items : list (list string)) : list (list string) :=
  match items with
  | [] => []
  | item :: items' =>
      if valid_item item then item :: valid_prefix items' else []
  end.

(** [item[0]] and [item[1]]. *)
Definition text_of (item : list string) : string := nth 0 item "".
Definition gold_of (item : list string) : string := nth 1 item "".

(** The calls of a run, one after the other from the world [w]: what each
    returned, and the world after the last. *)
Inductive calls_run (env : Env) (url : string)
  : list string -> World -> list (option float * Info) -> World -> Prop :=
| calls_run_nil (w : World) : calls_run env url [] w [] w
| calls_run_cons (text : string) (texts : list string) (w w1 w2 : World)
    (p : option float * Info) (ps : list (option float * Info)) :
    call_external_service env url text w = (inr p, w1) ->
    calls_run env url texts w1 ps w2 ->
    calls_run env url (text :: texts) w (p :: ps) w2.

(** The row the loop appends for an item and what its call returned. *)
Definition row_of (item : list string) (p : option float * Info) : BatchRow :=
  {| row_text := text_of item;
     row_gold := gold_of item;
     row_score := fst p;
     row_pred := option_map score_to_label (fst p);
     row_ok := match fst p with
               | Some s => String.eqb (label_str (score_to_label s)) (gold_of item)
               | None => false
               end;
     row_latency_ms := info_latency_ms (snd p);
     row_error := match fst p with
                  | Some _ => None
                  | None => Some (info_error (snd p))
                  end |}.

Definition rows_of (items : list (list string))
  (ps : list (option float * Info)) : list BatchRow :=
  map (fun ip => row_of (fst ip) (snd ip)) (combine items ps).

Definition count_rows_ok (rows : list BatchRow) : Z :=
  Z.of_nat (List.length (filter row_ok rows)).

(** The value of a bit. *)
Definition b2z (b : bool) : Z := if b then 1 else 0.

(** The state of [shr] after [j] halvings of [P]: the quotient, the last bit shifted out and
    whether any lower bit was set. *)
Definition shr_inv (P j : Z) (mrs : shr_record) : Prop :=
  0 <= shr_m mrs /\
  exists R,
    2 * P = 2 * shr_m mrs * 2 ^ j + b2z (shr_r mrs) * 2 ^ j + R /\
    0 <= R < 2 ^ j /\
    (shr_s mrs = false -> R = 0).

(** A list of floats in ascending order. *)
Definition ascending : list float -> Prop :=
  Sorted (fun a b => F64.leb a b = true).

(* ================================================================== *)
(** ** Sample environments *)

(** The clock advances by one second per reading. *)
Definition sample_clock (k : nat) : float := F64.of_int (Z.of_nat k).

(** Every POST ends the same way. No sample reply carries a score as a text
    that Python reads as a number, so [float] on a [str] always raises
    here. *)
Definition env_replying (p : post_result) : Env :=
  {| perf_counter_at := sample_clock;
     post_at := fun _ _ _ => p;
     float_of_str := fun _ => None |}.

(** The double quote, as a one-character [str]. *)
Definition dq : string := String (Ascii.ascii_of_nat 34) EmptyString.

(** [200], body [[]]. *)
Definition reply_empty_list : Response :=
  {| r_status_code := 200; r_text := "[]"; r_json := inr (JList []) |}.

(** [{"score": 2.0}], the score as the double 2.0. *)
Definition score_2 : json :=
  JDict [("score", JFloat (S754_finite false 4503599627370496 (-51)))].

Definition reply_201_score_2 : Response :=
  {| r_status_code := 201; r_text := ("{" ++ dq ++ "score" ++ dq ++ ": 2.0}")%string; r_json := inr score_2 |}.

Definition reply_200_score_2 : Response :=
  {| r_status_code := 200; r_text := ("{" ++ dq ++ "score" ++ dq ++ ": 2.0}")%string; r_json := inr score_2 |}.

(** [200], [{"score": 9}]. *)
Definition reply_200_score_9 : Response :=
  {| r_status_code := 200; r_text := ("{" ++ dq ++ "score" ++ dq ++ ": 9}")%string;
     r_json := inr (JDict [("score", JInt 9)]) |}.

(** [200], [{"score": "great"}]. *)
Definition reply_200_score_great : Response :=
  {| r_status_code := 200; r_text := ("{" ++ dq ++ "score" ++ dq ++ ": " ++ dq ++ "great" ++ dq ++ "}")%string;
     r_json := inr (JDict [("score", JStr "great")]) |}.

(** [404] with a body. *)
Definition reply_404 : Response :=
  {| r_status_code := 404; r_text := "Not Found";
     r_json := inl (Raise OtherException "JSONDecodeError"
                      [Lit "Expecting value: line 1 column 1 (char 0)"]) |}.

(** Every POST times out. *)
Definition read_timeout : exn :=
  Raise TimeoutException "ReadTimeout" [].

Definition env_timing_out : Env := env_replying (PostRaised read_timeout).

(** Three items of the built-in dataset. *)
Definition three_items : list (list string) :=
  [["Great course, learned a lot."; "positive"];
   ["Overall fine, nothing special."; "neutral"];
   ["Finn taught NLP, but honestly it felt messy and underprepared."; "negative"]].


(* ================================================================== *)
(** ** Vocabulary of the statements on runs and rows *)



(** The counters and the log of a [Metrics] object agree: every request is
    a success or a failure, none is counted negatively, the log has one
    latency per request and [last_latency_ms] is the last of the log. *)
Definition metrics_consistent (m : Metrics) : Prop :=
  total_requests m = success_requests m + failed_requests m /\
  0 <= success_requests m /\ 0 <= failed_requests m /\
  Z.of_nat (List.length (latencies_ms m)) = total_requests m /\
  last_latency_ms m = last (map Some (latencies_ms m)) None.

(** The detail of the 400 response for an item that fails a test of the
    loop: the test on the shape comes first. *)
Definition detail_of_invalid (item : list string) : message :=
  match item with
  | [_; gold] =>
      [Lit "Gold label must be positive/neutral/negative. Got: "; ReprStr gold]
  | _ => [Lit "Dataset must be a list of [text, gold_label] pairs."]
  end.

(** [200], [{"score": NaN}]: [json] reads the literal [NaN] as a float. *)
Definition reply_200_score_nan : Response :=
  {| r_status_code := 200;
     r_text := ("{" ++ dq ++ "score" ++ dq ++ ": NaN}")%string;
     r_json := inr (JDict [("score", JFloat S754_nan)]) |}.

(** The floats that are not below zero, by their shape: a zero of either
    sign, or a finite double or an infinity with the sign bit clear. *)
Definition not_negative (x : float) : Prop :=
  match x with
  | S754_zero _ => True
  | S754_infinity s | S754_finite s _ _ => s = false
  | S754_nan => False
  end.


(** The first POST times out, every later one is answered
    [{"score": NaN}]. *)
Definition env_timeout_then_nan : Env :=
  {| perf_counter_at := sample_clock;
     post_at := fun k _ _ =>
                  match k with
                  | O => PostRaised read_timeout
                  | S _ => Responded reply_200_score_nan
                  end;
     float_of_str := fun _ => None |}.

(** Two valid items. *)
Definition two_items : list (list string) :=
  [["Great course, learned a lot."; "positive"];
   ["Overall fine, nothing special."; "neutral"]].
(* ================================================================== *)
(** * Properties *)

(** ** Comparisons of floats *)

Lemma SFcompare_antisym (x y : float) :
  SFcompare x y = option_map CompOpp (SFcompare y x).
Proof.
  destruct x as [sx|sx| |sx mx ex], y as [sy|sy| |sy my ey];
    try destruct sx; try destruct sy; try reflexivity; cbn.
  - rewrite (Z.compare_antisym ey ex).
    destruct (ey ?= ex); cbn; try reflexivity.
    rewrite (Pos.compare_cont_antisym my mx Eq). reflexivity.
  - rewrite (Z.compare_antisym ey ex).
    destruct (ey ?= ex); cbn; try reflexivity.
    rewrite (Pos.compare_cont_antisym my mx Eq). cbn.
    destruct (Pos.compare_cont Eq my mx); reflexivity.
Qed.

Lemma SFcompare_None (x y : float) :
  SFcompare x y = None <-> F64.is_nan x = true \/ F64.is_nan y = true.
Proof.
  destruct x as [sx|sx| |sx mx ex], y as [sy|sy| |sy my ey]; cbn;
    try (split; [discriminate | intros [H|H]; discriminate]);
    try (split; auto; fail).
  all: try (destruct sx); try (destruct sy);
    try (split; [discriminate | intros [H|H]; discriminate]).
Qed.

(** [x < y] holds exactly when [y <= x] fails and neither is a NaN. *)
Lemma ltb_iff_not_leb (x y : float) :
  F64.ltb x y = true <->
  F64.leb y x = false /\ F64.is_nan x = false /\ F64.is_nan y = false.
Proof.
  unfold F64.ltb, F64.leb, SFltb, SFleb.
  rewrite (SFcompare_antisym y x).
  pose proof (SFcompare_None x y) as HN.
  destruct (SFcompare x y) as [[]|]; cbn.
  all: destruct (F64.is_nan x), (F64.is_nan y); intuition congruence.
Qed.

Lemma of_int_m1 : F64.of_int (-1) = S754_finite true 4503599627370496 (-52).
Proof. reflexivity. Qed.

Lemma of_int_1 : F64.of_int 1 = S754_finite false 4503599627370496 (-52).
Proof. reflexivity. Qed.

(** No float is both at most -1 and at least 1. *)
Lemma leb_m1_geb_1 (s : float) :
  F64.leb s (F64.of_int (-1)) = true -> F64.geb s (F64.of_int 1) = false.
Proof.
  rewrite of_int_m1, of_int_1. unfold F64.leb, F64.geb, SFleb.
  destruct s as [[]|[]| |[] m e]; intros H; try reflexivity;
    cbv in H; discriminate H.
Qed.

(** ** LabelMapper *)

(** C3 (as stated, refuted): on a NaN both tests of [score_to_label] fail,
    so the label is [neutral] although [-1 < s < 1] does not hold. *)
Lemma score_to_label_nan_not_between :
  ~ (score_to_label S754_nan = neutral <->
     F64.ltb (F64.of_int (-1)) S754_nan = true /\
     F64.ltb S754_nan (F64.of_int 1) = true).
Proof.
  intros [H _]. destruct (H eq_refl) as [H1 _]. discriminate H1.
Qed.

(** C3 (amended): for every float [s], the label is [negative] exactly when
    [s <= -1], [positive] exactly when [s >= 1], and [neutral] exactly when
    [-1 < s < 1] or [s] is a NaN; -1, 1 and 0 map to [negative], [positive]
    and [neutral]. *)
Theorem score_to_label_thresholds (s : float) :
  (score_to_label s = negative <-> F64.leb s (F64.of_int (-1)) = true) /\
  (score_to_label s = positive <-> F64.geb s (F64.of_int 1) = true) /\
  (score_to_label s = neutral <->
     (F64.ltb (F64.of_int (-1)) s = true /\ F64.ltb s (F64.of_int 1) = true)
     \/ F64.is_nan s = true) /\
  score_to_label (F64.of_int (-1)) = negative /\
  score_to_label (F64.of_int 1) = positive /\
  score_to_label (F64.of_int 0) = neutral.
Proof.
  pose proof (leb_m1_geb_1 s) as Hex.
  pose proof (ltb_iff_not_leb (F64.of_int (-1)) s) as Hlo.
  pose proof (ltb_iff_not_leb s (F64.of_int 1)) as Hhi.
  unfold score_to_label. unfold F64.geb in *. fold (F64.leb (F64.of_int 1) s) in *.
  assert (Hm1 : F64.is_nan (F64.of_int (-1)) = false) by reflexivity.
  assert (H1 : F64.is_nan (F64.of_int 1) = false) by reflexivity.
  assert (Hnan : F64.is_nan s = true ->
                 F64.leb s (F64.of_int (-1)) = false /\
                 F64.leb (F64.of_int 1) s = false).
  { destruct s; try discriminate. intros _. split; reflexivity. }
  repeat split; try reflexivity.
  - destruct (F64.leb s (F64.of_int (-1))); [reflexivity|].
    destruct (F64.leb (F64.of_int 1) s); discriminate.
  - intros H. rewrite H. reflexivity.
  - destruct (F64.leb s (F64.of_int (-1))); [discriminate|].
    destruct (F64.leb (F64.of_int 1) s); [reflexivity | discriminate].
  - intros H. rewrite H.
    destruct (F64.leb s (F64.of_int (-1))); [|reflexivity].
    specialize (Hex eq_refl). congruence.
  - destruct (F64.leb s (F64.of_int (-1))) eqn:E1; [discriminate|].
    destruct (F64.leb (F64.of_int 1) s) eqn:E2; [discriminate|]. intros _.
    destruct (F64.is_nan s); [right; reflexivity | left].
    split; [apply Hlo | apply Hhi]; auto.
  - intros [[Ha Hb] | Hn].
    + apply Hlo in Ha. apply Hhi in Hb.
      destruct Ha as [-> _], Hb as [-> _]. reflexivity.
    + destruct (Hnan Hn) as [-> ->]. reflexivity.
Qed.

(** ** MetricsRecorder: counters *)

Lemma record_all_app (c1 c2 : list (bool * float)) (m : Metrics) :
  record_all (c1 ++ c2) m = record_all c2 (record_all c1 m).
Proof. unfold record_all. apply fold_left_app. Qed.

Lemma count_ok_snoc (calls : list (bool * float)) (c : bool * float) :
  count_ok (calls ++ [c]) = count_ok calls + (if fst c then 1 else 0).
Proof.
  unfold count_ok. rewrite filter_app, length_app. cbn [filter].
  destruct (fst c); cbn [List.length]; lia.
Qed.

(** After any sequence of calls the counters count the calls, the
    successes and the failures, and the log holds the latencies in order. *)
Lemma record_all_counts (calls : list (bool * float)) :
  let m := record_all calls Metrics_new in
  total_requests m = Z.of_nat (List.length calls) /\
  success_requests m = count_ok calls /\
  failed_requests m = Z.of_nat (List.length calls) - count_ok calls /\
  latencies_ms m = map snd calls.
Proof.
  induction calls as [|c calls IH] using rev_ind.
  - cbn. repeat split; reflexivity.
  - cbv zeta in *. rewrite record_all_app. cbn [record_all fold_left].
    destruct IH as (Ht & Hs & Hf & Hl).
    rewrite count_ok_snoc, length_app, map_app. cbn [List.length map].
    unfold record at 1 2 3 4.
    cbn [total_requests success_requests failed_requests latencies_ms].
    rewrite Ht, Hs, Hf, Hl. destruct (fst c); repeat split; lia.
Qed.

Lemma count_ok_bounds (calls : list (bool * float)) :
  0 <= count_ok calls <= Z.of_nat (List.length calls).
Proof.
  unfold count_ok. pose proof (filter_length_le fst calls). lia.
Qed.

(** C5: from the initial object, after [n] calls to [record] in any order
    and with any outcomes, [total_requests] is [n], the successes and the
    failures add up to [n], no counter is negative; and a call to [record]
    on any object keeps [total_requests = success_requests +
    failed_requests]. *)
Theorem record_counters (calls : list (bool * float)) (m0 : Metrics)
  (ok : bool) (latency_ms : float) :
  let m := record_all calls Metrics_new in
  let n := Z.of_nat (List.length calls) in
  (total_requests m = n /\
   success_requests m + failed_requests m = n /\
   0 <= total_requests m /\ 0 <= success_requests m /\ 0 <= failed_requests m) /\
  total_requests (record m0 ok latency_ms) = total_requests m0 + 1 /\
  (total_requests m0 = success_requests m0 + failed_requests m0 ->
   total_requests (record m0 ok latency_ms) =
   success_requests (record m0 ok latency_ms) +
   failed_requests (record m0 ok latency_ms)).
Proof.
  cbv zeta. destruct (record_all_counts calls) as (Ht & Hs & Hf & _).
  pose proof (count_ok_bounds calls). split; [|split].
  - rewrite Ht, Hs, Hf. lia.
  - reflexivity.
  - cbn. destruct ok; lia.
Qed.

(** The invariant of C5 on three recorded calls. *)
Lemma record_counters_witness :
  total_requests
    (record (record_all [(true, F64.one); (false, F64.zero)] Metrics_new)
            true F64.one) =
  success_requests
    (record (record_all [(true, F64.one); (false, F64.zero)] Metrics_new)
            true F64.one) +
  failed_requests
    (record (record_all [(true, F64.one); (false, F64.zero)] Metrics_new)
            true F64.one).
Proof.
  apply (record_counters [] (record_all [(true, F64.one); (false, F64.zero)] Metrics_new)
           true F64.one).
  reflexivity.
Defined.

(** ** MetricsRecorder: the sorted log and the 95th percentile *)

(** [statistics.mean] returns on every list that is not empty. *)
Lemma mean_nonempty (x : float) (xs : list float) :
  exists a, mean (x :: xs) = inr a.
Proof.
  unfold mean. destruct (filter _ (x :: xs)).
  - destruct (F64.dy_sum (x :: xs)). eexists. reflexivity.
  - eexists. reflexivity.
Qed.


Lemma insort_permutation (x : float) (l : list float) :
  Permutation (insort x l) (x :: l).
Proof.
  induction l as [|y l IH]; cbn [insort]; [reflexivity|].
  destruct (F64.ltb x y); [reflexivity|].
  rewrite IH. apply perm_swap.
Qed.

Lemma sorted_snoc (l : list float) (x : float) :
  sorted (l ++ [x]) = insort x (sorted l).
Proof. unfold sorted. rewrite fold_left_app. reflexivity. Qed.

(** [sorted] rearranges its argument. *)
Lemma sorted_permutation (l : list float) : Permutation (sorted l) l.
Proof.
  induction l as [|x l IH] using rev_ind; [reflexivity|].
  rewrite sorted_snoc, insort_permutation, IH.
  apply Permutation_cons_append.
Qed.

Lemma sorted_length (l : list float) : List.length (sorted l) = List.length l.
Proof. apply Permutation_length, sorted_permutation. Qed.

Lemma ltb_leb (x y : float) : F64.ltb x y = true -> F64.leb x y = true.
Proof.
  unfold F64.ltb, F64.leb, SFltb, SFleb.
  destruct (SFcompare x y) as [[]|]; congruence.
Qed.

Lemma not_ltb_leb (x y : float) :
  F64.is_nan x = false -> F64.is_nan y = false ->
  F64.ltb x y = false -> F64.leb y x = true.
Proof.
  intros Hx Hy H. pose proof (ltb_iff_not_leb x y) as Hiff.
  destruct (F64.leb y x); [reflexivity|].
  rewrite (proj2 Hiff) in H; [discriminate | auto].
Qed.

Lemma insort_ascending (x : float) (l : list float) :
  F64.is_nan x = false ->
  Forall (fun y => F64.is_nan y = false) l ->
  ascending l -> ascending (insort x l).
Proof.
  intros Hx Hl Hs. induction Hs as [|y l Hs IH Hhd]; cbn [insort].
  - repeat constructor.
  - inversion Hl as [|? ? Hy Hl']; subst.
    destruct (F64.ltb x y) eqn:E.
    + constructor; [constructor; assumption|].
      constructor. apply ltb_leb, E.
    + constructor; [apply IH; assumption|].
      destruct Hhd as [|z l Hyz]; cbn [insort].
      * constructor. apply not_ltb_leb; assumption.
      * destruct (F64.ltb x z); constructor;
          [apply not_ltb_leb; assumption | exact Hyz].
Qed.

(** On a log without NaN, [sorted] is in ascending order. *)
Lemma sorted_ascending (l : list float) :
  Forall (fun y => F64.is_nan y = false) l -> ascending (sorted l).
Proof.
  induction l as [|x l IH] using rev_ind; intros Hl.
  - constructor.
  - apply Forall_app in Hl. destruct Hl as [Hl Hx].
    inversion Hx; subst. rewrite sorted_snoc.
    apply insort_ascending; [assumption | | apply IH; assumption].
    eapply Permutation_Forall; [symmetry; apply sorted_permutation | assumption].
Qed.

(** ** Rounding to 53 bits *)

Lemma digits2_pos_size (p : BinNums.positive) : digits2_pos p = Pos.size p.
Proof. induction p; cbn; congruence. Qed.

Lemma digits2_bounds (p : BinNums.positive) :
  2 ^ (Zpos (digits2_pos p) - 1) <= Zpos p < 2 ^ Zpos (digits2_pos p).
Proof.
  rewrite digits2_pos_size. split.
  - pose proof (Pos.size_le p) as H.
    apply Pos2Z.pos_le_pos in H. rewrite Pos2Z.inj_pow in H.
    change (Zpos p~0) with (2 * Zpos p) in H.
    replace (Zpos (Pos.size p)) with (Z.succ (Zpos (Pos.size p) - 1)) in H by lia.
    rewrite Z.pow_succ_r in H by lia. lia.
  - pose proof (Pos.size_gt p) as H.
    apply Pos2Z.pos_lt_pos in H. rewrite Pos2Z.inj_pow in H. exact H.
Qed.

Lemma digits2_unique (p : BinNums.positive) (d : Z) :
  2 ^ (d - 1) <= Zpos p < 2 ^ d -> Zpos (digits2_pos p) = d.
Proof.
  intros [Hlo Hhi]. destruct (digits2_bounds p) as [Hlo' Hhi'].
  assert (0 < d).
  { destruct (Z.lt_trichotomy d 0) as [Hd|[Hd|Hd]]; try lia.
    - rewrite Z.pow_neg_r in Hhi by lia. lia.
    - subst. cbn in Hhi. lia. }
  assert (Zpos (digits2_pos p) - 1 < d).
  { apply (Z.pow_lt_mono_r_iff 2); lia. }
  assert (d - 1 < Zpos (digits2_pos p)).
  { apply (Z.pow_lt_mono_r_iff 2); lia. }
  lia.
Qed.

Lemma shr_1_inv (P j : Z) (mrs : shr_record) :
  0 <= j -> shr_inv P j mrs -> shr_inv P (j + 1) (shr_1 mrs).
Proof.
  intros Hj (Hm & R & HP & HR & Hs). unfold shr_inv.
  rewrite Z.pow_add_r, Z.pow_1_r by lia.
  assert (0 < 2 ^ j) by (apply Z.pow_pos_nonneg; lia).
  destruct mrs as [m r s]. cbn [shr_m shr_r shr_s] in *.
  assert (Hs' : (r || s)%bool = false -> b2z r * 2 ^ j + R = 0).
  { intros E. apply orb_false_elim in E. destruct E as [-> E].
    rewrite (Hs E). reflexivity. }
  assert (HR' : 0 <= b2z r * 2 ^ j + R < 2 ^ j * 2).
  { destruct r; cbn [b2z]; lia. }
  destruct m as [|[p|p|]|p]; cbn [shr_1 shr_m shr_r shr_s b2z]; try lia.
  all: split; [lia|]; exists (b2z r * 2 ^ j + R); (split; [|split; assumption]).
  - lia.
  - rewrite (Pos2Z.inj_xI p) in HP. lia.
  - rewrite (Pos2Z.inj_xO p) in HP. lia.
  - lia.
Qed.

Lemma iter_shr_1_inv (P : Z) (p : BinNums.positive) :
  forall (j : Z) (mrs : shr_record),
    0 <= j -> shr_inv P j mrs -> shr_inv P (j + Zpos p) (iter_pos shr_1 p mrs).
Proof.
  induction p as [p IH|p IH|]; intros j mrs Hj H; cbn [iter_pos].
  - replace (j + Zpos p~1) with (j + 1 + Zpos p + Zpos p) by lia.
    apply IH; [lia|]. apply IH; [lia|]. apply shr_1_inv; assumption.
  - replace (j + Zpos p~0) with (j + Zpos p + Zpos p) by lia.
    apply IH; [lia|]. apply IH; assumption.
  - apply shr_1_inv; assumption.
Qed.

Lemma shr_inv_start (P : Z) : 0 <= P -> shr_inv P 0 (shr_record_of_loc P loc_Exact).
Proof.
  intros HP. split; [exact HP|]. exists 0. cbn. repeat split; lia.
Qed.

(** Rounding to nearest, ties to even, after [j] halvings: the result is
    within half a unit of [P / 2^j]. *)
Lemma round_nearest_even_inv (P j : Z) (mrs : shr_record) :
  shr_inv P j mrs ->
  let m1 := round_nearest_even (shr_m mrs) (loc_of_shr_record mrs) in
  shr_m mrs <= m1 <= shr_m mrs + 1 /\
  2 * P - 2 ^ j <= 2 * m1 * 2 ^ j <= 2 * P + 2 ^ j.
Proof.
  intros (Hm & R & HP & HR & Hs). destruct mrs as [m r s].
  cbn [shr_m shr_r shr_s loc_of_shr_record] in *.
  destruct r, s; cbn [round_nearest_even b2z] in *.
  - split; lia.
  - specialize (Hs eq_refl). destruct (Z.even m); split; lia.
  - split; lia.
  - split; lia.
Qed.

Lemma fexp_normal (e : Z) : -1074 <= e - 53 -> fexp 53 1024 e = e - 53.
Proof. intros H. unfold fexp, emin. lia. Qed.

Lemma shr_fexp_normal (m : BinNums.positive) (e : Z) (l : location) :
  -1074 <= Zpos (digits2_pos m) + e - 53 ->
  shr_fexp 53 1024 (Zpos m) e l =
  shr (shr_record_of_loc (Zpos m) l) e (Zpos (digits2_pos m) - 53).
Proof.
  intros H. unfold shr_fexp. cbn [Zdigits2]. rewrite fexp_normal by exact H.
  f_equal. lia.
Qed.

(** A mantissa of exactly 53 digits is kept as it is. *)
Lemma binary_round_aux_exact (sx : bool) (m : BinNums.positive) (e : Z) :
  Zpos (digits2_pos m) = 53 -> -1074 <= e <= 971 ->
  binary_round_aux 53 1024 sx (Zpos m) e loc_Exact = S754_finite sx m e.
Proof.
  intros Hd He. unfold binary_round_aux.
  rewrite shr_fexp_normal by lia. rewrite Hd. change (53 - 53) with 0.
  cbn [shr shr_record_of_loc shr_m loc_of_shr_record round_nearest_even].
  rewrite shr_fexp_normal by lia. rewrite Hd. change (53 - 53) with 0.
  cbn [shr shr_record_of_loc shr_m].
  replace (e <=? 1024 - 53) with true by (symmetry; apply Z.leb_le; lia).
  reflexivity.
Qed.

(** A mantissa of more than 53 digits is rounded to 53: the result is
    within half a unit in the last place kept. *)
Lemma binary_round_aux_shift (sx : bool) (P : BinNums.positive) (ex : Z) :
  let d := Zpos (digits2_pos P) in
  54 <= d -> -1074 <= d + ex - 53 -> d + ex - 53 < 971 ->
  exists m e,
    binary_round_aux 53 1024 sx (Zpos P) ex loc_Exact = S754_finite sx m e /\
    ex + (d - 53) <= e <= ex + (d - 53) + 1 /\
    2 * Zpos P - 2 ^ (d - 53) <= 2 * Zpos m * 2 ^ (e - ex)
      <= 2 * Zpos P + 2 ^ (d - 53).
Proof.
  intros d Hd Hlo Hhi.
  destruct (digits2_bounds P) as [HPlo HPhi]. fold d in HPlo, HPhi.
  unfold binary_round_aux. rewrite shr_fexp_normal by (fold d; lia). fold d.
  destruct (d - 53) as [|s|s] eqn:Hs; try lia. cbn [shr].
  pose proof (iter_shr_1_inv (Zpos P) s 0 _ (Z.le_refl 0)
                (shr_inv_start (Zpos P) (Pos2Z.is_nonneg P))) as Hinv.
  rewrite Z.add_0_l in Hinv.
  set (mrs := iter_pos shr_1 s (shr_record_of_loc (Zpos P) loc_Exact)) in *.
  pose proof (round_nearest_even_inv _ _ _ Hinv) as [Hm1 Hbound].
  set (m1 := round_nearest_even (shr_m mrs) (loc_of_shr_record mrs)) in *.
  destruct Hinv as (Hm & R & HP & HR & _).
  assert (HX : 0 < 2 ^ Zpos s) by (apply Z.pow_pos_nonneg; lia).
  assert (Hd1 : 2 ^ (d - 1) = 2 ^ 52 * 2 ^ Zpos s).
  { rewrite <- Z.pow_add_r by lia. f_equal. lia. }
  assert (Hd2 : 2 ^ d = 2 ^ 53 * 2 ^ Zpos s).
  { rewrite <- Z.pow_add_r by lia. f_equal. lia. }
  rewrite Hd1 in HPlo. rewrite Hd2 in HPhi.
  assert (Hmlo : 2 ^ 52 <= shr_m mrs).
  { apply Z.lt_succ_r. apply (Z.mul_lt_mono_pos_r (2 ^ Zpos s)); [exact HX|].
    destruct (shr_r mrs); cbn [b2z] in HP; lia. }
  assert (Hmhi : shr_m mrs < 2 ^ 53).
  { apply (Z.mul_lt_mono_pos_r (2 ^ Zpos s)); [exact HX|].
    destruct (shr_r mrs); cbn [b2z] in HP; lia. }
  destruct m1 as [|m1p|m1p] eqn:Em1; try lia.
  destruct (Z.eq_dec (Zpos m1p) (2 ^ 53)) as [Etop|Etop].
  - (* the mantissa was rounded up to 2^53 *)
    assert (Em : m1p = 9007199254740992%positive) by (injection Etop; auto).
    subst m1p. exists 4503599627370496%positive, (ex + Zpos s + 1).
    split; [|split; [lia|]].
    + rewrite shr_fexp_normal by (cbn [digits2_pos Pos.succ]; lia).
      change (Zpos (digits2_pos 9007199254740992) - 53) with 1.
      cbn [shr iter_pos shr_record_of_loc shr_1 shr_m].
      replace (ex + Zpos s + 1 <=? 1024 - 53) with true
        by (symmetry; apply Z.leb_le; lia).
      reflexivity.
    + replace (ex + Zpos s + 1 - ex) with (Zpos s + 1) by lia.
      rewrite Z.pow_add_r, Z.pow_1_r by lia.
      change (Zpos 4503599627370496) with (2 ^ 52).
      change (Zpos 9007199254740992) with (2 ^ 53) in Hbound. lia.
  - assert (Hdig : Zpos (digits2_pos m1p) = 53).
    { apply digits2_unique. change (53 - 1) with 52. lia. }
    exists m1p, (ex + Zpos s). split; [|split; [lia|]].
    + rewrite shr_fexp_normal by lia. rewrite Hdig. change (53 - 53) with 0.
      cbn [shr shr_record_of_loc shr_m].
      replace (ex + Zpos s <=? 1024 - 53) with true
        by (symmetry; apply Z.leb_le; lia).
      reflexivity.
    + replace (ex + Zpos s - ex) with (Zpos s) by lia. exact Hbound.
Qed.

Lemma pos_iter_xO (p d : BinNums.positive) :
  Zpos (Pos.iter xO p d) = Zpos p * 2 ^ Zpos d.
Proof.
  induction d as [|d IH] using Pos.peano_ind.
  - cbn [Pos.iter]. rewrite Z.pow_1_r. lia.
  - rewrite Pos.iter_succ, Pos2Z.inj_xO, IH, Pos2Z.inj_succ, Z.pow_succ_r by lia.
    lia.
Qed.

(** [float(k)] for an [int] of at most 53 bits is exact. *)
Lemma of_int_exact (k : BinNums.positive) :
  let d := Zpos (digits2_pos k) in
  d <= 53 ->
  exists m,
    F64.of_int (Zpos k) = S754_finite false m (d - 53) /\
    Zpos m = Zpos k * 2 ^ (53 - d).
Proof.
  intros d Hd. destruct (digits2_bounds k) as [Hlo Hhi]. fold d in Hlo, Hhi.
  assert (Hd0 : 0 < d) by (unfold d; lia).
  unfold F64.of_int, binary_normalize, binary_round, F64.prec, F64.emax.
  rewrite Z.add_0_r, fexp_normal by (fold d; lia). fold d.
  unfold shl_align. rewrite Z.sub_0_r.
  assert (Hdigits : forall m, Zpos m = Zpos k * 2 ^ (53 - d) ->
                              Zpos (digits2_pos m) = 53).
  { intros m Hm. apply digits2_unique. rewrite Hm. change (53 - 1) with 52.
    assert (E52 : 2 ^ 52 = 2 ^ (d - 1) * 2 ^ (53 - d))
      by (rewrite <- Z.pow_add_r by lia; f_equal; lia).
    assert (E53 : 2 ^ 53 = 2 ^ d * 2 ^ (53 - d))
      by (rewrite <- Z.pow_add_r by lia; f_equal; lia).
    rewrite E52, E53.
    assert (0 < 2 ^ (53 - d)) by (apply Z.pow_pos_nonneg; lia).
    split; [apply Z.mul_le_mono_nonneg_r | apply Z.mul_lt_mono_pos_r]; lia. }
  destruct (d - 53) as [|s|s] eqn:Hs; try lia.
  - exists k. replace (53 - d) with 0 by lia. rewrite Z.pow_0_r, Z.mul_1_r.
    split; [|reflexivity]. apply binary_round_aux_exact; [|lia].
    apply Hdigits. replace (53 - d) with 0 by lia. lia.
  - exists (Pos.iter xO k s).
    assert (Hm : Zpos (Pos.iter xO k s) = Zpos k * 2 ^ (53 - d)).
    { rewrite pos_iter_xO. f_equal. f_equal. lia. }
    split; [|exact Hm]. apply binary_round_aux_exact; [|lia].
    apply Hdigits, Hm.
Qed.

(** ** The index of the 95th percentile *)

Lemma mul_0_95_trunc (k : BinNums.positive) :
  Zpos k < 2 ^ 49 ->
  F64.is_finite (F64.of_int (Zpos k)) = true /\
  F64.trunc (F64.mul F64.lit_0_95 (F64.of_int (Zpos k))) = Some (19 * Zpos k / 20).
Proof.
  intros Hk. destruct (digits2_bounds k) as [Hklo Hkhi].
  set (dk := Zpos (digits2_pos k)) in *.
  assert (Hdk0 : 0 < dk) by (unfold dk; lia).
  assert (Hdk : dk <= 49).
  { assert (dk - 1 < 49); [|lia]. apply (Z.pow_lt_mono_r_iff 2); lia. }
  destruct (of_int_exact k) as (mk & Hof & Hmk); [fold dk; lia|]. fold dk in Hof, Hmk.
  rewrite Hof. split; [reflexivity|].
  set (U := 2 ^ (53 - dk)) in *.
  assert (HU : 16 <= U).
  { change 16 with (2 ^ 4). apply Z.pow_le_mono_r; lia. }
  assert (HX : 2 ^ 52 <= Zpos k * U < 2 ^ 53).
  { assert (E52 : 2 ^ 52 = 2 ^ (dk - 1) * U)
      by (unfold U; rewrite <- Z.pow_add_r by lia; f_equal; lia).
    assert (E53 : 2 ^ 53 = 2 ^ dk * U)
      by (unfold U; rewrite <- Z.pow_add_r by lia; f_equal; lia).
    rewrite E52, E53.
    split; [apply Z.mul_le_mono_nonneg_r | apply Z.mul_lt_mono_pos_r]; lia. }
  assert (HkU : Zpos k * U < 2 ^ 49 * U).
  { apply Z.mul_lt_mono_pos_r; lia. }
  unfold F64.mul, F64.lit_0_95, SFmul, F64.prec, F64.emax. cbn [xorb].
  set (P := (8556839292003942 * mk)%positive).
  assert (HP : Zpos P = 8556839292003942 * (Zpos k * U)).
  { unfold P. rewrite Pos2Z.inj_mul, Hmk. reflexivity. }
  destruct (digits2_bounds P) as [HPlo HPhi].
  set (d := Zpos (digits2_pos P)) in *.
  assert (Hd : d = 105 \/ d = 106).
  { assert (d - 1 < 106) by (apply (Z.pow_lt_mono_r_iff 2); lia).
    assert (104 < d) by (apply (Z.pow_lt_mono_r_iff 2); lia). lia. }
  destruct (binary_round_aux_shift false P (-53 + (dk - 53)))
    as (m & e & Hr & He & Hb); try (fold d; lia).
  fold d in He, Hb. rewrite Hr. cbn [F64.trunc].
  destruct e as [|e|e]; try lia.
  rewrite Z.shiftr_div_pow2 by lia. f_equal.
  pose proof (Z.div_mod (19 * Zpos k) 20 ltac:(lia)) as Hq.
  pose proof (Z.mod_pos_bound (19 * Zpos k) 20 ltac:(lia)) as Hrm.
  set (q := 19 * Zpos k / 20) in *. set (r := (19 * Zpos k) mod 20) in *.
  assert (HqU : 19 * (Zpos k * U) = 20 * (q * U) + r * U).
  { replace (19 * (Zpos k * U)) with ((19 * Zpos k) * U) by ring.
    rewrite Hq. ring. }
  assert (HrU : r = 0 \/ U <= r * U) by nia.
  assert (HrU' : r * U <= 19 * U) by nia.
  assert (Hq0 : 0 <= q) by (unfold q; apply Z.div_pos; lia).
  assert (HqU0 : 0 <= q * U) by nia.
  symmetry. apply Z.div_unique with (r := Zpos m - 2 ^ Zpos e * q).
  2: lia.
  left.
  set (t := Z.neg e - (-53 + (dk - 53))) in *.
  set (B := 2 ^ Zpos e).
  assert (HPd : d = 105 /\ Zpos P < 2 ^ 105 \/ d = 106 /\ 2 ^ 105 <= Zpos P).
  { destruct Hd as [Hd|Hd]; rewrite Hd in HPlo, HPhi; [left | right];
      (split; [exact Hd|assumption]). }
  assert (HB : t = 52 /\ B = 2 * U \/ t = 53 /\ B = U \/ t = 54 /\ U = 2 * B).
  { assert (Ht : t = 52 \/ t = 53 \/ t = 54) by lia.
    destruct Ht as [Ht|[Ht|Ht]]; [left | right; left | right; right];
      (split; [exact Ht|]); unfold B, U.
    - replace (Zpos e) with (53 - dk + 1) by lia.
      rewrite Z.pow_add_r, Z.pow_1_r by lia. ring.
    - f_equal. lia.
    - replace (53 - dk) with (Zpos e + 1) by lia.
      rewrite Z.pow_add_r, Z.pow_1_r by lia. ring. }
  assert (Htd : d - 53 <= t <= d - 52) by lia.
  clearbody B t U P d q r. clear Hr Hof Hklo Hkhi.
  destruct HPd as [[-> HPd]|[-> HPd]];
    destruct HB as [[-> HB]|[[-> HB]|[-> HB]]]; try lia.
  all: change (2 ^ (105 - 53)) with 4503599627370496 in Hb;
       change (2 ^ (106 - 53)) with 9007199254740992 in Hb;
       change (2 ^ 52) with 4503599627370496 in *;
       change (2 ^ 53) with 9007199254740992 in *;
       change (2 ^ 54) with 18014398509481984 in *;
       change (2 ^ 49) with 562949953421312 in *;
       change (2 ^ 105) with 40564819207303340847894502572032 in *.
  all: subst; lia.
Qed.

(** ** Results of the arithmetic are numbers *)

Lemma shr_1_nonneg (mrs : shr_record) :
  0 <= shr_m mrs -> 0 <= shr_m (shr_1 mrs).
Proof.
  destruct mrs as [[|[p|p|]|p] r s]; cbn [shr_1 shr_m]; lia.
Qed.

Lemma iter_shr_1_nonneg (p : BinNums.positive) :
  forall mrs, 0 <= shr_m mrs -> 0 <= shr_m (iter_pos shr_1 p mrs).
Proof.
  induction p as [p IH|p IH|]; intros mrs H; cbn [iter_pos].
  - apply IH, IH, shr_1_nonneg, H.
  - apply IH, IH, H.
  - apply shr_1_nonneg, H.
Qed.

Lemma shr_fexp_nonneg (m e : Z) (l : location) :
  0 <= m -> 0 <= shr_m (fst (shr_fexp 53 1024 m e l)).
Proof.
  intros H. unfold shr_fexp, shr.
  assert (H0 : 0 <= shr_m (shr_record_of_loc m l)).
  { destruct l as [|[]]; exact H. }
  destruct (fexp 53 1024 (Zdigits2 m + e) - e); cbn [fst]; try exact H0.
  apply iter_shr_1_nonneg, H0.
Qed.

Lemma round_nearest_even_nonneg (m : Z) (l : location) :
  0 <= m -> 0 <= round_nearest_even m l.
Proof.
  intros H. destruct l as [|[]]; cbn [round_nearest_even]; try lia.
  destruct (Z.even m); lia.
Qed.

(** Rounding a non-negative mantissa never yields a NaN. *)
Lemma binary_round_aux_not_nan (sx : bool) (m e : Z) (l : location) :
  0 <= m -> F64.is_nan (binary_round_aux 53 1024 sx m e l) = false.
Proof.
  intros H. unfold binary_round_aux.
  pose proof (shr_fexp_nonneg m e l H) as H1.
  destruct (shr_fexp 53 1024 m e l) as [mrs' e']. cbn [fst] in H1.
  pose proof (shr_fexp_nonneg _ e' loc_Exact
                (round_nearest_even_nonneg _ (loc_of_shr_record mrs') H1)) as H2.
  destruct (shr_fexp 53 1024 _ e' loc_Exact) as [mrs'' e'']. cbn [fst] in H2.
  destruct (shr_m mrs'') as [|p|p]; try lia; [reflexivity|].
  destruct (e'' <=? 1024 - 53); reflexivity.
Qed.

Lemma binary_normalize_not_nan (m e : Z) (s : bool) :
  F64.is_nan (binary_normalize 53 1024 m e s) = false.
Proof.
  destruct m as [|p|p]; cbn [binary_normalize]; [reflexivity| |];
    unfold binary_round;
    destruct (shl_align _ _ _) as [mz ez];
    apply binary_round_aux_not_nan; lia.
Qed.

Lemma sub_not_nan (x y : float) :
  F64.is_finite x = true -> F64.is_finite y = true ->
  F64.is_nan (F64.sub x y) = false.
Proof.
  unfold F64.sub, F64.prec, F64.emax.
  destruct x as [sx|sx| |sx mx ex], y as [sy|sy| |sy my ey]; try discriminate;
    intros _ _; cbn [SFsub].
  - destruct sx, sy; reflexivity.
  - reflexivity.
  - reflexivity.
  - apply binary_normalize_not_nan.
Qed.

Lemma mul_1000_not_nan (x : float) :
  F64.is_nan x = false -> F64.is_nan (F64.mul x F64.lit_1000) = false.
Proof.
  unfold F64.mul, F64.lit_1000, F64.prec, F64.emax.
  destruct x as [sx|sx| |sx mx ex]; try discriminate; intros _; cbn [SFmul];
    try reflexivity.
  apply binary_round_aux_not_nan. lia.
Qed.

(** A latency measured between two finite readings of the clock is not a
    NaN. *)
Lemma elapsed_ms_not_nan (t0 t : float) :
  F64.is_finite t0 = true -> F64.is_finite t = true ->
  F64.is_nan (elapsed_ms t0 t) = false.
Proof.
  intros H0 H. unfold elapsed_ms. apply mul_1000_not_nan, sub_not_nan; assumption.
Qed.

(** ** Quotients of integers that do not overflow *)

Lemma digits2_le (m k : Z) : 0 <= k -> 0 <= m < 2 ^ k -> Zdigits2 m <= k.
Proof.
  intros Hk [H0 H]. destruct m as [|p|p]; cbn [Zdigits2]; try lia.
  destruct (digits2_bounds p) as [Hlo _].
  assert (Zpos (digits2_pos p) - 1 < k); [|lia].
  apply (Z.pow_lt_mono_r_iff 2); lia.
Qed.

Lemma shr_1_le (mrs : shr_record) :
  0 <= shr_m mrs -> 0 <= shr_m (shr_1 mrs) <= shr_m mrs.
Proof.
  destruct mrs as [[|[p|p|]|p] r s]; cbn [shr_1 shr_m]; lia.
Qed.

Lemma iter_shr_1_le (p : BinNums.positive) :
  forall mrs, 0 <= shr_m mrs -> 0 <= shr_m (iter_pos shr_1 p mrs) <= shr_m mrs.
Proof.
  induction p as [p IH|p IH|]; intros mrs H; cbn [iter_pos].
  - pose proof (shr_1_le mrs H) as H1.
    pose proof (IH _ (proj1 H1)) as H2.
    pose proof (IH _ (proj1 H2)) as H3. lia.
  - pose proof (IH _ H) as H2.
    pose proof (IH _ (proj1 H2)) as H3. lia.
  - apply shr_1_le, H.
Qed.

(** What [shr_fexp] returns: a mantissa that is not larger, at the exponent
    of the format. *)
Lemma shr_fexp_bounds (m e : Z) (l : location) :
  0 <= m ->
  0 <= shr_m (fst (shr_fexp 53 1024 m e l)) <= m /\
  snd (shr_fexp 53 1024 m e l) = Z.max e (fexp 53 1024 (Zdigits2 m + e)).
Proof.
  intros H. unfold shr_fexp, shr.
  assert (H0 : shr_m (shr_record_of_loc m l) = m) by (destruct l as [|[]]; reflexivity).
  destruct (fexp 53 1024 (Zdigits2 m + e) - e) as [|p|p] eqn:E; cbn [fst snd].
  - rewrite H0. lia.
  - pose proof (iter_shr_1_le p (shr_record_of_loc m l)) as Hi.
    rewrite H0 in Hi. lia.
  - rewrite H0. lia.
Qed.

Lemma round_nearest_even_le (m : Z) (l : location) :
  0 <= m -> 0 <= round_nearest_even m l <= m + 1.
Proof.
  intros H. destruct l as [|[]]; cbn [round_nearest_even]; try lia.
  destruct (Z.even m); lia.
Qed.

(** A mantissa below [2 * 2^-e] at an exponent [e] of at most [-53] rounds
    to a finite double. *)
Lemma binary_round_aux_finite (sx : bool) (m e : Z) (l : location) :
  -1074 <= e <= -53 -> 0 <= m < 2 ^ (1 - e) ->
  F64.is_finite (binary_round_aux 53 1024 sx m e l) = true.
Proof.
  intros He Hm. unfold binary_round_aux.
  destruct (shr_fexp_bounds m e l (proj1 Hm)) as [H1 E1].
  destruct (shr_fexp 53 1024 m e l) as [mrs' e1]. cbn [fst snd] in H1, E1.
  pose proof (round_nearest_even_le _ (loc_of_shr_record mrs') (proj1 H1)) as Hr.
  destruct (shr_fexp_bounds _ e1 loc_Exact (proj1 Hr)) as [H2 E2].
  destruct (shr_fexp 53 1024 _ e1 loc_Exact) as [mrs'' e2]. cbn [fst snd] in H2, E2.
  assert (Hd1 : Zdigits2 m <= 1 - e) by (apply digits2_le; lia).
  assert (Hp : 2 ^ (1 - e) <= 2 ^ 1075) by (apply Z.pow_le_mono_r; lia).
  assert (Hd2 : Zdigits2 (round_nearest_even (shr_m mrs') (loc_of_shr_record mrs'))
                <= 1076).
  { apply digits2_le; [lia|]. change (2 ^ 1076) with (2 * 2 ^ 1075). lia. }
  unfold fexp, emin in E1, E2.
  destruct (shr_m mrs'') as [|p|p]; try lia; [reflexivity|].
  replace (e2 <=? 1024 - 53) with true; [reflexivity|].
  symmetry. apply Z.leb_le. lia.
Qed.

(** [a / b] on [int]s with [0 <= a <= b] is a finite double. *)
Lemma round_div_le_finite (a b : Z) :
  0 <= a <= b -> 0 < b -> F64.is_finite (F64.round_div a 0 b) = true.
Proof.
  intros Ha Hb. unfold F64.round_div, F64.prec, F64.emax.
  destruct a as [|p|p]; [reflexivity| |lia].
  unfold SFdiv_core_binary.
  set (d1 := Zdigits2 (Zpos p)). set (d2 := Zdigits2 b).
  assert (Hd : 1 <= d1 <= d2).
  { subst d1 d2. destruct b as [|q|q]; try lia. cbn [Zdigits2].
    destruct (digits2_bounds p) as [Hlo _]. destruct (digits2_bounds q) as [_ Hhi].
    assert (Zpos (digits2_pos p) - 1 < Zpos (digits2_pos q)); [|lia].
    apply (Z.pow_lt_mono_r_iff 2); lia. }
  set (e' := Z.min (fexp 53 1024 (d1 + 0 - (d2 + 0))) (0 - 0)).
  assert (He : -1074 <= e' <= -53) by (subst e'; unfold fexp, emin; lia).
  destruct (0 - 0 - e') as [|s|s] eqn:Es; try lia.
  rewrite Z.shiftl_mul_pow2 by lia.
  pose proof (Z_div_mod (Zpos p * 2 ^ Zpos s) b ltac:(lia)) as Hdiv.
  destruct (Z.div_eucl (Zpos p * 2 ^ Zpos s) b) as [q r]. destruct Hdiv as [Hq Hr].
  assert (H2 : 0 < 2 ^ Zpos s) by (apply Z.pow_pos_nonneg; lia).
  apply binary_round_aux_finite; [exact He|].
  replace (1 - e') with (Z.succ (Zpos s)) by lia. rewrite Z.pow_succ_r by lia.
  split; nia.
Qed.

Lemma int_truediv_le (a b : Z) :
  0 <= a <= b -> 0 < b -> int_truediv a b = inr (F64.round_div a 0 b).
Proof.
  intros Ha Hb. unfold int_truediv. destruct b as [|q|q]; try lia.
  rewrite (round_div_le_finite a (Zpos q) Ha Hb). reflexivity.
Qed.

(** [int(0.95 * (n - 1))], computed in doubles, is the integer part of
    [19 * (n - 1) / 20] for every length a log can have. *)
Lemma p95_index_exact (len : Z) :
  1 <= len <= 2 ^ 49 -> p95_index len = inr (19 * (len - 1) / 20).
Proof.
  intros H. unfold p95_index, float_mul_int, py_int.
  destruct (len - 1) as [|k|k] eqn:Hk; try lia.
  - reflexivity.
  - destruct (mul_0_95_trunc k) as [Hfin Htr]; [lia|].
    rewrite Hfin, Htr. reflexivity.
Qed.

Lemma getitem_nth (xs : list float) (i : Z) :
  0 <= i < Z.of_nat (List.length xs) ->
  exists x, nth_error xs (Z.to_nat i) = Some x /\ getitem xs i = inr x.
Proof.
  intros H. unfold getitem.
  assert (E0 : (i <? 0) = false) by (apply Z.ltb_ge; lia).
  rewrite E0. cbv zeta. rewrite E0.
  destruct (nth_error xs (Z.to_nat i)) as [x|] eqn:E.
  - exists x. split; reflexivity.
  - apply nth_error_None in E. lia.
Qed.

(** C4: the snapshot of an object with fewer than 20 latencies has no p95;
    with at least 20 latencies (none a NaN) the p95 is the element at index
    [floor (0.95 * (count - 1))] of the log sorted in ascending order, which
    is a rearrangement of the whole log; after the 20 latencies 1, 2, ...,
    20 it is 19. *)
Theorem p95_of_snapshot (m : Metrics) :
  let xs := latencies_ms m in
  let count := Z.of_nat (List.length xs) in
  (count < 20 ->
   exists s, snapshot m = inr s /\ snap_p95_latency_ms s = None) /\
  (20 <= count <= 2 ^ 49 ->
   Forall (fun x => F64.is_nan x = false) xs ->
   exists s x,
     snapshot m = inr s /\
     snap_p95_latency_ms s = Some x /\
     nth_error (sorted xs) (Z.to_nat (19 * (count - 1) / 20)) = Some x /\
     Permutation (sorted xs) xs /\
     ascending (sorted xs)) /\
  (xs = map F64.of_int
          [1; 2; 3; 4; 5; 6; 7; 8; 9; 10; 11; 12; 13; 14; 15; 16; 17; 18; 19; 20] ->
   exists s, snapshot m = inr s /\ snap_p95_latency_ms s = Some (F64.of_int 19)).
Proof.
  cbv zeta.
  assert (Hgen : 20 <= Z.of_nat (List.length (latencies_ms m)) <= 2 ^ 49 ->
                 exists s x,
                   snapshot m = inr s /\
                   snap_p95_latency_ms s = Some x /\
                   nth_error (sorted (latencies_ms m))
                     (Z.to_nat (19 * (Z.of_nat (List.length (latencies_ms m)) - 1) / 20))
                   = Some x).
  { intros Hlen. unfold snapshot.
    destruct (latencies_ms m) as [|x0 xs] eqn:Hxs; [cbn in Hlen; lia|].
    destruct (mean_nonempty x0 xs) as (a & ->).
    replace (20 <=? Z.of_nat (List.length (x0 :: xs))) with true
      by (symmetry; apply Z.leb_le; lia).
    rewrite sorted_length, p95_index_exact by lia.
    destruct (getitem_nth (sorted (x0 :: xs))
                (19 * (Z.of_nat (List.length (x0 :: xs)) - 1) / 20))
      as (x & Hnth & ->).
    { rewrite sorted_length. split.
      - apply Z.div_pos; lia.
      - apply Z.div_lt_upper_bound; lia. }
    do 2 eexists. split; [reflexivity|]. split; [reflexivity | exact Hnth]. }
  split; [|split].
  - intros Hlen. unfold snapshot.
    replace (20 <=? Z.of_nat (List.length (latencies_ms m))) with false
      by (symmetry; apply Z.leb_gt; lia).
    destruct (latencies_ms m) as [|x0 xs].
    + eexists. split; reflexivity.
    + destruct (mean_nonempty x0 xs) as (a & ->). eexists. split; reflexivity.
  - intros Hlen Hnan. destruct (Hgen Hlen) as (s & x & Hs & Hp & Hnth).
    exists s, x. repeat split; try assumption.
    + apply sorted_permutation.
    + apply sorted_ascending, Hnan.
  - intros Hxs. destruct Hgen as (s & x & Hs & Hp & Hnth).
    { rewrite Hxs. cbn. lia. }
    exists s. split; [exact Hs|]. rewrite Hp. rewrite Hxs in Hnth.
    vm_compute in Hnth. injection Hnth as <-. reflexivity.
Qed.

(** C4 on the log of twenty calls that took 20, 19, ..., 1 milliseconds. *)
Lemma p95_of_snapshot_witness :
  exists s x,
    snapshot (record_all
                (map (fun z => (true, F64.of_int z))
                   [20; 19; 18; 17; 16; 15; 14; 13; 12; 11;
                    10; 9; 8; 7; 6; 5; 4; 3; 2; 1])
                Metrics_new) = inr s /\
    snap_p95_latency_ms s = Some x /\
    x = F64.of_int 19.
Proof.
  destruct (p95_of_snapshot
              (record_all
                 (map (fun z => (true, F64.of_int z))
                    [20; 19; 18; 17; 16; 15; 14; 13; 12; 11;
                     10; 9; 8; 7; 6; 5; 4; 3; 2; 1])
                 Metrics_new)) as (_ & H & _).
  destruct H as (s & x & Hs & Hp & Hnth & _).
  - vm_compute. split; discriminate.
  - vm_compute. repeat constructor.
  - exists s, x. split; [exact Hs|]. split; [exact Hp|].
    vm_compute in Hnth. injection Hnth as Hx. symmetry. exact Hx.
Defined.

(** ** ScoreClient: one call, branch by branch *)

Lemma dict_get_in (k : string) (kv : list (string * json)) (v : json) :
  dict_get k kv = Some v ->
  existsb (fun p => String.eqb k (fst p)) kv = true.
Proof.
  induction kv as [|[k' v'] kv IH]; cbn; [discriminate|].
  destruct (String.eqb k k'); [reflexivity|]. exact IH.
Qed.

Lemma in_dict_get (k : string) (kv : list (string * json)) :
  existsb (fun p => String.eqb k (fst p)) kv = true ->
  exists v, dict_get k kv = Some v.
Proof.
  induction kv as [|[k' v'] kv IH]; cbn; [discriminate|].
  destruct (String.eqb k k'); [eexists; reflexivity|]. exact IH.
Qed.

Section CallBranches.
Variable env : Env.
Variables (url text : string) (w : World).

Ltac run_call :=
  unfold call_external_service, on_exception, try_except, bind, ret, lift,
         perf_counter, client_post, metrics_record;
  cbn [ticks posts metrics].

(** [float] raises nothing that the first two [except] clauses catch. *)
Lemma py_float_raises (v : json) (e : exn) :
  py_float env v = inl e -> exn_class_of e = OtherException.
Proof.
  destruct v; cbn; try (intros [= <-]; reflexivity).
  - destruct (F64.is_finite _); intros [= <-]; reflexivity.
  - destruct (float_of_str env s); intros [= <-]; reflexivity.
Qed.

Lemma call_post_raised e :
  sent env url text w = PostRaised e ->
  call_external_service env url text w =
  (inr (None,
        {| info_latency_ms := latency_at env w 1;
           info_error := Some (exception_text e);
           info_warning := None;
           info_endpoint := endpoint_of url |}),
   world_after url text w (record (metrics w) false (latency_at env w 1)) 2).
Proof.
  intros Hs. unfold sent, endpoint_of in Hs. run_call. rewrite Hs. reflexivity.
Qed.

Lemma call_non_200 r :
  sent env url text w = Responded r ->
  r_status_code r <> 200 ->
  call_external_service env url text w =
  (inr (None,
        {| info_latency_ms := latency_at env w 1;
           info_error := Some
             [Lit "External service responded with HTTP ";
              FmtInt (r_status_code r); Lit ". ";
              Lit "Expected 200. Response body (truncated): ";
              ReprStr (substring 0 200 (r_text r))];
           info_warning := None;
           info_endpoint := endpoint_of url |}),
   world_after url text w (record (metrics w) false (latency_at env w 1)) 2).
Proof.
  intros Hs Hc. unfold sent, endpoint_of in Hs. run_call. rewrite Hs.
  apply Z.eqb_neq in Hc. rewrite Hc. reflexivity.
Qed.

Lemma call_json_raised r e :
  sent env url text w = Responded r ->
  r_status_code r = 200 ->
  r_json r = inl e ->
  call_external_service env url text w =
  (inr (None,
        {| info_latency_ms := latency_at env w 2;
           info_error := Some (exception_text e);
           info_warning := None;
           info_endpoint := endpoint_of url |}),
   world_after url text w (record (metrics w) false (latency_at env w 2)) 3).
Proof.
  intros Hs Hc Hj. unfold sent, endpoint_of in Hs. run_call.
  rewrite Hs, Hc, Hj. reflexivity.
Qed.

Lemma call_missing_key r kv :
  sent env url text w = Responded r ->
  r_status_code r = 200 ->
  r_json r = inr (JDict kv) ->
  dict_get "score" kv = None ->
  call_external_service env url text w =
  (inr (None,
        {| info_latency_ms := latency_at env w 1;
           info_error := Some
             [Lit "External service returned JSON without the required field 'score'. ";
              Lit "Got keys: "; ReprList (map fst kv)];
           info_warning := None;
           info_endpoint := endpoint_of url |}),
   world_after url text w (record (metrics w) false (latency_at env w 1)) 2).
Proof.
  intros Hs Hc Hj Hd. unfold sent, endpoint_of in Hs. run_call.
  rewrite Hs, Hc, Hj. cbn [Z.eqb Pos.eqb negb py_not_in].
  destruct (existsb _ kv) eqn:E.
  - apply in_dict_get in E. destruct E as [v E]. congruence.
  - reflexivity.
Qed.

Lemma call_float_raised r kv v e :
  sent env url text w = Responded r ->
  r_status_code r = 200 ->
  r_json r = inr (JDict kv) ->
  dict_get "score" kv = Some v ->
  py_float env v = inl e ->
  call_external_service env url text w =
  (inr (None,
        {| info_latency_ms := latency_at env w 2;
           info_error := Some (exception_text e);
           info_warning := None;
           info_endpoint := endpoint_of url |}),
   world_after url text w (record (metrics w) false (latency_at env w 2)) 3).
Proof.
  intros Hs Hc Hj Hd Hf. unfold sent, endpoint_of in Hs. run_call.
  rewrite Hs, Hc, Hj. cbn [Z.eqb Pos.eqb negb py_not_in].
  rewrite (dict_get_in _ _ _ Hd). cbn [negb subscript]. rewrite Hd, Hf.
  reflexivity.
Qed.

Lemma call_scored r kv v score :
  sent env url text w = Responded r ->
  r_status_code r = 200 ->
  r_json r = inr (JDict kv) ->
  dict_get "score" kv = Some v ->
  py_float env v = inr score ->
  call_external_service env url text w =
  (inr (Some score,
        {| info_latency_ms := latency_at env w 1;
           info_error := None;
           info_warning :=
             if in_range score then None
             else Some [Lit "Score "; FmtFloat score;
                        Lit " is outside expected range [-5, 5]."];
           info_endpoint := endpoint_of url |}),
   world_after url text w (record (metrics w) true (latency_at env w 1)) 2).
Proof.
  intros Hs Hc Hj Hd Hf. unfold sent, endpoint_of in Hs.
  run_call. rewrite Hs, Hc, Hj. cbn [Z.eqb Pos.eqb negb py_not_in].
  rewrite (dict_get_in _ _ _ Hd). cbn [negb subscript]. rewrite Hd, Hf.
  fold (in_range score). destruct (in_range score); reflexivity.
Qed.

(** The reply is a list or a string without ["score"]: the call is recorded
    at line 272, [data.keys()] raises, and the last [except] clause records
    it again. *)
Lemma call_keyless r data :
  sent env url text w = Responded r ->
  r_status_code r = 200 ->
  r_json r = inr data ->
  keyless_without_score (Responded r) = true ->
  exists e,
  keys data = inl e /\
  call_external_service env url text w =
  (inr (None,
        {| info_latency_ms := latency_at env w 2;
           info_error := Some (exception_text e);
           info_warning := None;
           info_endpoint := endpoint_of url |}),
   world_after url text w
     (record (record (metrics w) false (latency_at env w 1))
             false (latency_at env w 2)) 3).
Proof.
  intros Hs Hc Hj Hk. unfold sent, endpoint_of in Hs.
  cbn [keyless_without_score] in Hk. rewrite Hc, Hj in Hk.
  cbn [Z.eqb Pos.eqb andb] in Hk.
  destruct data; try discriminate Hk.
  all: eexists; split; [reflexivity|].
  all: run_call; rewrite Hs, Hc, Hj; cbn [Z.eqb Pos.eqb negb py_not_in].
  all: rewrite Hk; reflexivity.
Qed.

Lemma call_contains_raised r data e :
  sent env url text w = Responded r ->
  r_status_code r = 200 ->
  r_json r = inr data ->
  py_not_in "score" data = inl e ->
  call_external_service env url text w =
  (inr (None,
        {| info_latency_ms := latency_at env w 2;
           info_error := Some (exception_text e);
           info_warning := None;
           info_endpoint := endpoint_of url |}),
   world_after url text w (record (metrics w) false (latency_at env w 2)) 3).
Proof.
  intros Hs Hc Hj Hn. unfold sent, endpoint_of in Hs. run_call.
  rewrite Hs, Hc, Hj. cbn [Z.eqb Pos.eqb negb]. rewrite Hn. reflexivity.
Qed.

Lemma call_subscript_raised r data e :
  sent env url text w = Responded r ->
  r_status_code r = 200 ->
  r_json r = inr data ->
  py_not_in "score" data = inr false ->
  subscript data "score" = inl e ->
  call_external_service env url text w =
  (inr (None,
        {| info_latency_ms := latency_at env w 2;
           info_error := Some (exception_text e);
           info_warning := None;
           info_endpoint := endpoint_of url |}),
   world_after url text w (record (metrics w) false (latency_at env w 2)) 3).
Proof.
  intros Hs Hc Hj Hn Hg. unfold sent, endpoint_of in Hs. run_call.
  rewrite Hs, Hc, Hj. cbn [Z.eqb Pos.eqb negb]. rewrite Hn, Hg. reflexivity.
Qed.

End CallBranches.

(** Every call returns: no exception leaves the wrapper. It sends one
    request; the score is absent exactly when an error text is set; and it
    records itself once, with the latency it reports and as a success
    exactly when it returns a score -- except on a reply of status 200 whose
    JSON is a list or a string without ["score"], which it records twice as
    a failure. The latency it reports is measured at the second reading of
    the clock, or at the third when an [except] clause took it; the endpoint
    it reports is the one it called. *)
Theorem call_external_service_returns (env : Env) (url text : string) (w : World) :
  exists score info w',
    call_external_service env url text w = (inr (score, info), w') /\
    posts w' = posts w ++ [(endpoint_of url, text)] /\
    (match score with
     | None => exists m, info_error info = Some m
     | Some _ => info_error info = None
     end) /\
    (if keyless_without_score (sent env url text w)
     then score = None /\
          metrics w' = record (record (metrics w) false (latency_at env w 1))
                              false (info_latency_ms info)
     else metrics w' = record (metrics w)
                              (match score with Some _ => true | None => false end)
                              (info_latency_ms info)) /\
    ((info_latency_ms info = latency_at env w 1 /\ ticks w' = (2 + ticks w)%nat) \/
     (info_latency_ms info = latency_at env w 2 /\ ticks w' = (3 + ticks w)%nat)) /\
    info_endpoint info = endpoint_of url.
Proof.
  destruct (sent env url text w) as [r|e] eqn:Hs.
  2:{ rewrite (call_post_raised _ _ _ _ _ Hs). do 3 eexists.
      split; [reflexivity|]. cbn. eauto 10. }
  destruct (Z.eq_dec (r_status_code r) 200) as [Hc|Hc].
  2:{ rewrite (call_non_200 _ _ _ _ _ Hs Hc). do 3 eexists.
      split; [reflexivity|]. cbn. apply Z.eqb_neq in Hc. rewrite Hc. cbn. eauto 10. }
  destruct (r_json r) as [e|data] eqn:Hj.
  { rewrite (call_json_raised _ _ _ _ _ _ Hs Hc Hj). do 3 eexists.
    split; [reflexivity|]. cbn. rewrite Hj, andb_false_r. eauto 10. }
  destruct (keyless_without_score (Responded r)) eqn:Hk.
  { destruct (call_keyless _ _ _ _ _ _ Hs Hc Hj Hk) as (e & _ & ->).
    do 3 eexists. split; [reflexivity|]. cbn. eauto 10. }
  cbn [keyless_without_score] in Hk. rewrite Hc, Hj in Hk.
  cbn [Z.eqb Pos.eqb andb] in Hk.
  destruct (py_not_in "score" data) as [e|[|]] eqn:Hn.
  - rewrite (call_contains_raised _ _ _ _ _ _ _ Hs Hc Hj Hn). do 3 eexists.
    split; [reflexivity|]. cbn. eauto 10.
  - destruct data; try discriminate Hn; cbn [py_not_in] in Hn.
    + congruence.
    + congruence.
    + destruct (dict_get "score" kv) as [v|] eqn:Hd.
      { rewrite (dict_get_in _ _ _ Hd) in Hn. discriminate Hn. }
      rewrite (call_missing_key _ _ _ _ _ _ Hs Hc Hj Hd). do 3 eexists.
      split; [reflexivity|]. cbn. eauto 10.
  - destruct (subscript data "score") as [e|v] eqn:Hg.
    { rewrite (call_subscript_raised _ _ _ _ _ _ _ Hs Hc Hj Hn Hg).
      do 3 eexists. split; [reflexivity|]. cbn. eauto 10. }
    destruct data; try discriminate Hg. cbn [subscript] in Hg.
    destruct (dict_get "score" kv) as [v'|] eqn:Hd; [|discriminate Hg].
    injection Hg as ->.
    destruct (py_float env v) as [e|score] eqn:Hf.
    + rewrite (call_float_raised _ _ _ _ _ _ _ _ Hs Hc Hj Hd Hf).
      do 3 eexists. split; [reflexivity|]. cbn. eauto 10.
    + rewrite (call_scored _ _ _ _ _ _ _ _ Hs Hc Hj Hd Hf).
      do 3 eexists. split; [reflexivity|]. cbn. eauto 10.
Qed.

(** A call whose readings of the clock are finite logs no NaN. *)
Lemma call_latencies_not_nan (env : Env) (url text : string) (w w1 : World)
  (p : option float * Info) :
  call_external_service env url text w = (inr p, w1) ->
  (forall k, (ticks w <= k < ticks w1)%nat ->
             F64.is_finite (perf_counter_at env k) = true) ->
  Forall (fun x => F64.is_nan x = false) (latencies_ms (metrics w)) ->
  Forall (fun x => F64.is_nan x = false) (latencies_ms (metrics w1)) /\
  (ticks w <= ticks w1)%nat.
Proof.
  intros Hcall Hfin Hlog.
  destruct (call_external_service_returns env url text w)
    as (score & info & w' & Hcall' & _ & _ & Hm & Hl & _).
  rewrite Hcall in Hcall'. injection Hcall' as -> ->.
  assert (H1 : (ticks w' = 2 + ticks w \/ ticks w' = 3 + ticks w)%nat)
    by (destruct Hl as [[_ Ht]|[_ Ht]]; lia).
  split; [|lia].
  assert (Hk : forall k, (1 <= k)%nat -> (k + ticks w < ticks w')%nat ->
                         F64.is_nan (latency_at env w k) = false).
  { intros k Hk1 Hk2. apply elapsed_ms_not_nan; apply Hfin; lia. }
  assert (Hi : F64.is_nan (info_latency_ms info) = false).
  { destruct Hl as [[-> Ht]|[-> Ht]]; apply Hk; lia. }
  destruct (keyless_without_score (sent env url text w)).
  - destruct Hm as [_ ->]. cbn [record latencies_ms].
    repeat (apply Forall_app; split); try assumption.
    + repeat constructor. apply Hk; lia.
    + repeat constructor. exact Hi.
  - rewrite Hm. cbn [record latencies_ms].
    apply Forall_app. split; [assumption|]. repeat constructor. exact Hi.
Qed.

(** ** ScoreClient: the claims *)

Lemma substring_length_le (n : nat) (s : string) :
  (String.length (substring 0 n s) <= n)%nat.
Proof.
  revert s. induction n as [|n IH]; intros [|c s]; cbn; try lia.
  specialize (IH s). lia.
Qed.

Lemma substring_prefix (n : nat) (s : string) :
  prefix (substring 0 n s) s = true.
Proof.
  revert s. induction n as [|n IH]; intros [|c s]; cbn; try reflexivity.
  rewrite IH. destruct (ascii_dec c c); [reflexivity | congruence].
Qed.

(** A score below -5 or above 5 fails the range test of line 283. *)
Lemma outside_not_in_range (score : float) :
  F64.ltb score (F64.of_int (-5)) = true \/ F64.gtb score (F64.of_int 5) = true ->
  in_range score = false.
Proof.
  unfold in_range, F64.gtb. fold (F64.ltb (F64.of_int 5) score).
  intros [H|H]; apply ltb_iff_not_leb in H; destruct H as (H & _).
  - rewrite H. reflexivity.
  - rewrite H. apply andb_false_r.
Qed.

(** C2 (the code breaks it): the service answers [200] with the JSON body
    [[]]. The call is recorded at line 272, then [data.keys()] raises inside
    the [try], and the last [except] clause records it once more: the
    counters go up by two and two latencies are logged. *)
Theorem list_reply_is_recorded_twice :
  let w' := snd (call_external_service (env_replying (Responded reply_empty_list))
                   "http://localhost:8000" "Great course, learned a lot."
                   World_new) in
  total_requests (metrics w') = 2 /\
  failed_requests (metrics w') = 2 /\
  success_requests (metrics w') = 0 /\
  List.length (latencies_ms (metrics w')) = 2%nat /\
  List.length (posts w') = 1%nat.
Proof. vm_compute. repeat split; reflexivity. Qed.

(** C6: a reply of status 200 whose JSON object holds a score that [float]
    converts to a value outside [-5, 5] makes the call a success: the score
    is returned, no error is set, a warning is, and the call is recorded
    once, as a success. *)
Theorem out_of_range_score_is_accepted (env : Env) (url text : string) (w : World)
  (r : Response) (kv : list (string * json)) (v : json) (score : float) :
  sent env url text w = Responded r ->
  r_status_code r = 200 ->
  r_json r = inr (JDict kv) ->
  dict_get "score" kv = Some v ->
  py_float env v = inr score ->
  F64.ltb score (F64.of_int (-5)) = true \/ F64.gtb score (F64.of_int 5) = true ->
  exists info w',
    call_external_service env url text w = (inr (Some score, info), w') /\
    info_error info = None /\
    info_warning info = Some [Lit "Score "; FmtFloat score;
                              Lit " is outside expected range [-5, 5]."] /\
    info_latency_ms info = latency_at env w 1 /\
    metrics w' = record (metrics w) true (info_latency_ms info) /\
    total_requests (metrics w') = total_requests (metrics w) + 1 /\
    success_requests (metrics w') = success_requests (metrics w) + 1 /\
    failed_requests (metrics w') = failed_requests (metrics w).
Proof.
  intros Hs Hc Hj Hd Hf Hout.
  rewrite (call_scored _ _ _ _ _ _ _ _ Hs Hc Hj Hd Hf).
  rewrite (outside_not_in_range _ Hout).
  do 2 eexists. split; [reflexivity|]. cbn. repeat split; reflexivity.
Qed.

(** C6 on the reply [{"score": 9}]. *)
Lemma out_of_range_score_is_accepted_witness :
  exists info w',
    call_external_service (env_replying (Responded reply_200_score_9))
      "http://localhost:8000/" "Loved it" World_new
    = (inr (Some (F64.of_int 9), info), w') /\
    info_error info = None /\
    info_warning info = Some [Lit "Score "; FmtFloat (F64.of_int 9);
                              Lit " is outside expected range [-5, 5]."] /\
    info_latency_ms info =
      latency_at (env_replying (Responded reply_200_score_9)) World_new 1 /\
    metrics w' = record (metrics World_new) true (info_latency_ms info) /\
    total_requests (metrics w') = total_requests (metrics World_new) + 1 /\
    success_requests (metrics w') = success_requests (metrics World_new) + 1 /\
    failed_requests (metrics w') = failed_requests (metrics World_new).
Proof.
  apply (out_of_range_score_is_accepted
           (env_replying (Responded reply_200_score_9))
           "http://localhost:8000/" "Loved it" World_new
           reply_200_score_9 [("score", JInt 9)] (JInt 9) (F64.of_int 9)).
  - reflexivity.
  - reflexivity.
  - reflexivity.
  - reflexivity.
  - reflexivity.
  - right. reflexivity.
Defined.

(** C7 (as stated, refuted): status 201 is a 2xx status and the body holds
    the score 2.0, within range, yet the call is a failure: the test of
    line 259 is [r.status_code != 200]. *)
Lemma status_201_with_score_is_failure :
  (200 <=? r_status_code reply_201_score_2) && (r_status_code reply_201_score_2 <? 300) = true /\
  r_json reply_201_score_2 = inr score_2 /\
  in_range (S754_finite false 4503599627370496 (-51)) = true /\
  exists info,
    fst (call_external_service (env_replying (Responded reply_201_score_2))
           "http://localhost:8000" "Great course, learned a lot." World_new)
    = inr (None, info) /\
    info_error info = Some
      [Lit "External service responded with HTTP "; FmtInt 201; Lit ". ";
       Lit "Expected 200. Response body (truncated): ";
       ReprStr (r_text reply_201_score_2)].
Proof.
  split; [reflexivity|]. split; [reflexivity|]. split; [reflexivity|].
  eexists. split; vm_compute; reflexivity.
Qed.

(** C7 (amended): a reply whose status is not 200 makes the call a failure
    whose error text holds the status code and the first 200 characters of
    the body; a reply of status 200 whose JSON object holds a score that
    [float] converts to a value within [-5, 5] makes it a success that
    carries this score, with neither error nor warning. *)
Theorem status_200_decides (env : Env) (url text : string) (w : World)
  (r : Response) :
  sent env url text w = Responded r ->
  (r_status_code r <> 200 ->
   exists info w',
     call_external_service env url text w = (inr (None, info), w') /\
     info_error info = Some
       [Lit "External service responded with HTTP ";
        FmtInt (r_status_code r); Lit ". ";
        Lit "Expected 200. Response body (truncated): ";
        ReprStr (substring 0 200 (r_text r))] /\
     (String.length (substring 0 200 (r_text r)) <= 200)%nat /\
     prefix (substring 0 200 (r_text r)) (r_text r) = true /\
     metrics w' = record (metrics w) false (info_latency_ms info)) /\
  (r_status_code r = 200 ->
   forall (kv : list (string * json)) (v : json) (score : float),
     r_json r = inr (JDict kv) ->
     dict_get "score" kv = Some v ->
     py_float env v = inr score ->
     in_range score = true ->
     exists info w',
       call_external_service env url text w = (inr (Some score, info), w') /\
       info_error info = None /\
       info_warning info = None /\
       metrics w' = record (metrics w) true (info_latency_ms info)).
Proof.
  intros Hs. split.
  - intros Hc. rewrite (call_non_200 _ _ _ _ _ Hs Hc).
    do 2 eexists. split; [reflexivity|]. cbn.
    split; [reflexivity|]. split; [apply substring_length_le|].
    split; [apply substring_prefix | reflexivity].
  - intros Hc kv v score Hj Hd Hf Hr.
    rewrite (call_scored _ _ _ _ _ _ _ _ Hs Hc Hj Hd Hf), Hr.
    do 2 eexists. split; [reflexivity|]. cbn. repeat split; reflexivity.
Qed.

(** C7 (amended) on a 404 reply and on the reply [{"score": 2.0}]. *)
Lemma status_200_decides_witness :
  (exists info w',
     call_external_service (env_replying (Responded reply_404))
       "http://localhost:8000" "Overall fine, nothing special." World_new
     = (inr (None, info), w') /\
     info_error info = Some
       [Lit "External service responded with HTTP "; FmtInt 404; Lit ". ";
        Lit "Expected 200. Response body (truncated): ";
        ReprStr (substring 0 200 "Not Found")]) /\
  (exists info w',
     call_external_service (env_replying (Responded reply_200_score_2))
       "http://localhost:8000" "Overall fine, nothing special." World_new
     = (inr (Some (S754_finite false 4503599627370496 (-51)), info), w') /\
     info_error info = None /\ info_warning info = None).
Proof.
  split.
  - destruct (status_200_decides (env_replying (Responded reply_404))
                "http://localhost:8000" "Overall fine, nothing special."
                World_new reply_404 eq_refl) as [H _].
    destruct H as (info & w' & H1 & H2 & _).
    + cbn. discriminate.
    + exists info, w'. split; [exact H1 | exact H2].
  - destruct (status_200_decides (env_replying (Responded reply_200_score_2))
                "http://localhost:8000" "Overall fine, nothing special."
                World_new reply_200_score_2 eq_refl) as [_ H].
    destruct (H eq_refl [("score", JFloat (S754_finite false 4503599627370496 (-51)))]
                (JFloat (S754_finite false 4503599627370496 (-51)))
                (S754_finite false 4503599627370496 (-51))
                eq_refl eq_refl eq_refl eq_refl)
      as (info & w' & H1 & H2 & H3 & _).
    exists info, w'. repeat split; assumption.
Defined.

(** C10: a reply of status 200 whose JSON object holds the key ["score"]
    with a value on which [float] raises makes the call a failure through
    the last [except] clause: the error text names the type and the text of
    the exception, not the keys of the object, and the call is recorded
    once, as a failure. *)
Theorem unconvertible_score_is_failure (env : Env) (url text : string) (w : World)
  (r : Response) (kv : list (string * json)) (v : json) (e : exn) :
  sent env url text w = Responded r ->
  r_status_code r = 200 ->
  r_json r = inr (JDict kv) ->
  dict_get "score" kv = Some v ->
  py_float env v = inl e ->
  exists info w',
    call_external_service env url text w = (inr (None, info), w') /\
    info_error info = Some
      ([Lit "Unexpected error while calling/parsing the external service response. ";
        Lit "Details: "; Lit (exn_type e); Lit ": "] ++ exn_text e) /\
    info_error info <> Some
      [Lit "External service returned JSON without the required field 'score'. ";
       Lit "Got keys: "; ReprList (map fst kv)] /\
    metrics w' = record (metrics w) false (info_latency_ms info) /\
    total_requests (metrics w') = total_requests (metrics w) + 1 /\
    failed_requests (metrics w') = failed_requests (metrics w) + 1 /\
    success_requests (metrics w') = success_requests (metrics w).
Proof.
  intros Hs Hc Hj Hd Hf.
  rewrite (call_float_raised _ _ _ _ _ _ _ _ Hs Hc Hj Hd Hf).
  do 2 eexists. split; [reflexivity|].
  cbn [info_error info_latency_ms world_after metrics].
  unfold exception_text. rewrite (py_float_raises _ _ _ Hf).
  split; [reflexivity|]. split; [|cbn; repeat split; reflexivity].
  intros H. injection H as H _. discriminate H.
Qed.

(** C10 on the reply [{"score": "great"}]. *)
Lemma unconvertible_score_is_failure_witness :
  exists info w',
    call_external_service (env_replying (Responded reply_200_score_great))
      "http://localhost:8000" "Helt fint, ikke noget wow." World_new
    = (inr (None, info), w') /\
    info_error info = Some
      [Lit "Unexpected error while calling/parsing the external service response. ";
       Lit "Details: "; Lit "ValueError"; Lit ": ";
       Lit "could not convert string to float: "; ReprStr "great"] /\
    failed_requests (metrics w') = 1.
Proof.
  destruct (unconvertible_score_is_failure
              (env_replying (Responded reply_200_score_great))
              "http://localhost:8000" "Helt fint, ikke noget wow." World_new
              reply_200_score_great [("score", JStr "great")] (JStr "great")
              (ValueError [Lit "could not convert string to float: "; ReprStr "great"])
              eq_refl eq_refl eq_refl eq_refl eq_refl)
    as (info & w' & H1 & H2 & _ & _ & _ & H3 & _).
  exists info, w'. repeat split; assumption.
Defined.

(** ** BatchEvaluator: the loop *)

Lemma valid_item_inv (item : list string) :
  valid_item item = true ->
  exists text gold,
    item = [text; gold] /\
    existsb (String.eqb gold) ["positive"; "neutral"; "negative"] = true.
Proof.
  destruct item as [|text [|gold [|x item]]]; try discriminate.
  intros H. exists text, gold. split; [reflexivity | exact H].
Qed.

Section Batch.
Variable env : Env.
Variable url : string.

(** Calls never fail to return, so a run over any texts exists. *)
Lemma calls_run_total (texts : list string) (w : World) :
  exists ps w', calls_run env url texts w ps w'.
Proof.
  revert w. induction texts as [|text texts IH]; intros w.
  - exists [], w. constructor.
  - destruct (call_external_service_returns env url text w)
      as (score & info & w1 & Hcall & _).
    destruct (IH w1) as (ps & w2 & Hrun).
    exists ((score, info) :: ps), w2. econstructor; eassumption.
Qed.

Lemma calls_run_length (texts : list string) (w w' : World)
  (ps : list (option float * Info)) :
  calls_run env url texts w ps w' -> List.length ps = List.length texts.
Proof.
  induction 1; cbn; [reflexivity | congruence].
Qed.

(** A run sends one request per text, in order, and nothing else. *)
Lemma calls_run_posts (texts : list string) (w w' : World)
  (ps : list (option float * Info)) :
  calls_run env url texts w ps w' ->
  posts w' = posts w ++ map (fun t => (endpoint_of url, t)) texts.
Proof.
  induction 1 as [w|text texts w w1 w2 p ps Hcall _ IH]; cbn [map].
  - symmetry. apply app_nil_r.
  - destruct (call_external_service_returns env url text w)
      as (score & info & w1' & Hcall' & Hposts & _).
    rewrite Hcall in Hcall'. injection Hcall' as _ <-.
    rewrite IH, Hposts, <- app_assoc. reflexivity.
Qed.


Lemma rows_of_cons (item : list string) (items : list (list string))
  (p : option float * Info) (ps : list (option float * Info)) :
  rows_of (item :: items) (p :: ps) = row_of item p :: rows_of items ps.
Proof. reflexivity. Qed.

Lemma count_rows_ok_cons (row : BatchRow) (rows : list BatchRow) :
  count_rows_ok (row :: rows) = (if row_ok row then 1 else 0) + count_rows_ok rows.
Proof.
  unfold count_rows_ok. cbn [filter]. destruct (row_ok row); cbn [List.length]; lia.
Qed.

(** The loop over valid items: it runs the calls in order and appends one
    row and one latency per item, whatever the calls return. *)
Lemma api_batch_loop_valid (items : list (list string)) :
  Forall (fun item => valid_item item = true) items ->
  forall (vars : BatchVars) (w : World),
  exists ps w',
    calls_run env url (map text_of items) w ps w' /\
    api_batch_loop env url items vars w =
    (inr (inr {| rows_out := rows_out vars ++ rows_of items ps;
                 latencies := latencies vars ++
                              map (fun p => info_latency_ms (snd p)) ps;
                 correct := correct vars + count_rows_ok (rows_of items ps);
                 n := n vars + Z.of_nat (List.length items) |}), w').
Proof.
  induction 1 as [|item items Hv _ IH]; intros vars w.
  - exists [], w. split; [constructor|]. cbn.
    rewrite !app_nil_r, !Z.add_0_r. destruct vars; reflexivity.
  - destruct (valid_item_inv _ Hv) as (text & gold & -> & Hgold).
    destruct (call_external_service_returns env url text w)
      as (score & info & w1 & Hcall & _).
    cbn [api_batch_loop]. rewrite Hgold. cbn [negb].
    unfold bind at 1. rewrite Hcall.
    destruct score as [score|].
    + match goal with |- context [api_batch_loop env url items ?v w1] =>
        destruct (IH v w1) as (ps & w2 & Hrun & ->) end.
      exists ((Some score, info) :: ps), w2. split.
      { cbn [map]. econstructor; [exact Hcall | exact Hrun]. }
      cbn [rows_out latencies correct n].
      rewrite rows_of_cons, count_rows_ok_cons. cbn [map snd].
      rewrite <- !app_assoc. cbn [app].
      cbn [List.length]. rewrite Nat2Z.inj_succ, <- Z.add_1_l, !Z.add_assoc.
      reflexivity.
    + match goal with |- context [api_batch_loop env url items ?v w1] =>
        destruct (IH v w1) as (ps & w2 & Hrun & ->) end.
      exists ((None, info) :: ps), w2. split.
      { cbn [map]. econstructor; [exact Hcall | exact Hrun]. }
      cbn [rows_out latencies correct n].
      rewrite rows_of_cons, count_rows_ok_cons. cbn [map snd].
      rewrite <- !app_assoc. cbn [app].
      cbn [List.length]. rewrite Nat2Z.inj_succ, <- Z.add_1_l, !Z.add_assoc.
      cbn [row_of row_ok fst]. rewrite Z.add_0_r. reflexivity.
Qed.

(** The loop on an item that fails one of the two tests: a 400 response,
    at once. *)
Lemma api_batch_loop_invalid_head (item : list string) (items : list (list string))
  (vars : BatchVars) (w : World) :
  valid_item item = false ->
  exists detail,
    api_batch_loop env url (item :: items) vars w =
    (inr (inl {| status_code := 400; content := Detail detail |}), w).
Proof.
  intros Hv. destruct item as [|text [|gold [|x item]]]; cbn [api_batch_loop];
    try (eexists; reflexivity).
  cbn [valid_item] in Hv. rewrite Hv. eexists. reflexivity.
Qed.

(** The loop up to the first invalid item: the calls of the items before it
    are made, then the 400 response is returned. *)
Lemma api_batch_loop_invalid (items : list (list string)) :
  Exists (fun item => valid_item item = false) items ->
  forall (vars : BatchVars) (w : World),
  exists ps w' detail,
    calls_run env url (map text_of (valid_prefix items)) w ps w' /\
    api_batch_loop env url items vars w =
    (inr (inl {| status_code := 400; content := Detail detail |}), w').
Proof.
  induction items as [|item items IH]; intros Hex vars w.
  - inversion Hex.
  - cbn [valid_prefix]. destruct (valid_item item) eqn:Hv.
    + assert (Hex' : Exists (fun item => valid_item item = false) items).
      { inversion Hex as [? ? H|? ? H]; subst; [congruence | exact H]. }
      destruct (valid_item_inv _ Hv) as (text & gold & -> & Hgold).
      destruct (call_external_service_returns env url text w)
        as (score & info & w1 & Hcall & _).
      cbn [api_batch_loop]. rewrite Hgold. cbn [negb].
      unfold bind at 1. rewrite Hcall.
      destruct score as [score|].
      * match goal with |- context [api_batch_loop env url items ?v w1] =>
          destruct (IH Hex' v w1) as (ps & w2 & detail & Hrun & ->) end.
        exists ((Some score, info) :: ps), w2, detail. split; [|reflexivity].
        cbn [map]. econstructor; [exact Hcall | exact Hrun].
      * match goal with |- context [api_batch_loop env url items ?v w1] =>
          destruct (IH Hex' v w1) as (ps & w2 & detail & Hrun & ->) end.
        exists ((None, info) :: ps), w2, detail. split; [|reflexivity].
        cbn [map]. econstructor; [exact Hcall | exact Hrun].
    + destruct (api_batch_loop_invalid_head item items vars w Hv) as (detail & ->).
      exists [], w, detail. split; [constructor | reflexivity].
Qed.

End Batch.

(** ** BatchEvaluator: the claims *)

Lemma rows_of_length (items : list (list string)) (ps : list (option float * Info)) :
  List.length ps = List.length items ->
  List.length (rows_of items ps) = List.length items.
Proof.
  intros H. unfold rows_of. rewrite length_map, length_combine. lia.
Qed.



Lemma count_rows_ok_le (rows : list BatchRow) :
  0 <= count_rows_ok rows <= Z.of_nat (List.length rows).
Proof.
  unfold count_rows_ok. pose proof (filter_length_le row_ok rows). lia.
Qed.

(** The constructor of the response returns the response when every float
    of the content is finite, and raises [ValueError] when one is not. *)
Lemma JSONResponse_init_finite (status : Z) (c : Content) :
  forallb F64.is_finite (content_floats c) = true ->
  JSONResponse_init status c = inr {| status_code := status; content := c |}.
Proof. intros H. unfold JSONResponse_init. rewrite H. reflexivity. Qed.

Lemma JSONResponse_init_raises (status : Z) (c : Content) (x : float) :
  In x (content_floats c) -> F64.is_finite x = false ->
  exists e, JSONResponse_init status c = inl e /\ exn_type e = "ValueError"%string.
Proof.
  intros Hin Hx. unfold JSONResponse_init.
  destruct (forallb F64.is_finite (content_floats c)) eqn:E.
  - rewrite forallb_forall in E. rewrite (E x Hin) in Hx. discriminate.
  - eexists. split; reflexivity.
Qed.


(** A batch over valid items: the calls are made in order, and the response
    is built from a payload whose fields are computed from the rows of all
    the calls. *)
Lemma api_batch_valid (env : Env) (req : BatchRequest) (w : World) :
  Forall (fun item => valid_item item = true) (dataset req) ->
  exists ps w' accuracy avg,
    calls_run env (service_url req) (map text_of (dataset req)) w ps w' /\
    api_batch env req w =
    (JSONResponse_init 200
       (BatchPayload (Z.of_nat (List.length (dataset req)))
          (count_rows_ok (rows_of (dataset req) ps))
          accuracy avg (rows_of (dataset req) ps)), w') /\
    match dataset req with
    | [] => accuracy = F64.zero /\ avg = F64.zero
    | _ :: _ =>
        int_truediv (count_rows_ok (rows_of (dataset req) ps))
                    (Z.of_nat (List.length (dataset req))) = inr accuracy /\
        mean (map (fun p => info_latency_ms (snd p)) ps) = inr avg
    end.
Proof.
  intros Hv.
  destruct (api_batch_loop_valid env (service_url req) (dataset req) Hv
              {| rows_out := []; latencies := []; correct := 0; n := 0 |} w)
    as (ps & w' & Hrun & Hloop).
  pose proof (calls_run_length _ _ _ _ _ _ Hrun) as Hlen.
  rewrite length_map in Hlen.
  unfold api_batch. unfold bind at 1. rewrite Hloop.
  cbn [rows_out latencies correct n app Z.add].
  destruct (dataset req) as [|item items] eqn:Hds.
  - destruct ps; [|discriminate Hlen].
    exists [], w', F64.zero, F64.zero. split; [exact Hrun|].
    split; [reflexivity | split; reflexivity].
  - destruct ps as [|p ps]; [discriminate Hlen|].
    destruct (mean_nonempty (info_latency_ms (snd p))
                (map (fun p => info_latency_ms (snd p)) ps)) as (avg & Havg).
    pose proof (count_rows_ok_le (rows_of (item :: items) (p :: ps))) as Hc.
    rewrite rows_of_length in Hc by exact Hlen.
    remember (count_rows_ok (rows_of (item :: items) (p :: ps))) as c.
    remember (rows_of (item :: items) (p :: ps)) as rows.
    cbn [List.length] in Hc |- *. rewrite Nat2Z.inj_succ in Hc |- *.
    destruct (Z.succ (Z.of_nat (List.length items))) as [|k|k] eqn:Hk; try lia.
    eexists (p :: ps), w', _, avg. split; [exact Hrun|].
    cbn [map] in *. unfold bind, lift, ret. cbn [Z.eqb].
    rewrite (int_truediv_le c (Zpos k)) by lia.
    rewrite Havg. subst c rows.
    split; [reflexivity | split; [apply int_truediv_le; lia | reflexivity]].
Qed.

(** C1 (as stated, refuted): the first item is valid and the second is not.
    The batch is answered with a 400, but the request of the first item was
    sent, and recorded, before. *)
Lemma invalid_second_item_after_one_call :
  Exists (fun item => valid_item item = false)
    [["Great course, learned a lot."; "positive"];
     ["Overall fine, nothing special."; "mixed"]] /\
  exists detail w',
    api_batch (env_replying (Responded reply_200_score_2))
      {| service_url := "http://localhost:8000";
         dataset := [["Great course, learned a lot."; "positive"];
                     ["Overall fine, nothing special."; "mixed"]] |}
      World_new
    = (inr {| status_code := 400; content := Detail detail |}, w') /\
    posts w' = [("http://localhost:8000/v1/sentiment", "Great course, learned a lot.")] /\
    total_requests (metrics w') = 1.
Proof.
  split.
  - apply Exists_cons_tl, Exists_cons_hd. reflexivity.
  - do 2 eexists. split; [vm_compute; reflexivity|]. split; reflexivity.
Qed.

(** C1 (amended): when an item of the dataset is not a pair or its gold
    label is none of the three, the batch is answered with a 400 and an
    error detail, no row; the requests that were sent before are those of
    the items in front of the first such item, in order, so none was sent
    when the first item is the invalid one. *)
Theorem invalid_item_fails_batch (env : Env) (req : BatchRequest) (w : World) :
  Exists (fun item => valid_item item = false) (dataset req) ->
  exists detail w',
    api_batch env req w =
    (inr {| status_code := 400; content := Detail detail |}, w') /\
    posts w' = posts w ++
               map (fun item => (endpoint_of (service_url req), text_of item))
                   (valid_prefix (dataset req)) /\
    (valid_prefix (dataset req) = [] -> w' = w).
Proof.
  intros Hex.
  destruct (api_batch_loop_invalid env (service_url req) (dataset req) Hex
              {| rows_out := []; latencies := []; correct := 0; n := 0 |} w)
    as (ps & w' & detail & Hrun & Hloop).
  exists detail, w'. split; [|split].
  - unfold api_batch. unfold bind at 1. rewrite Hloop. reflexivity.
  - rewrite (calls_run_posts _ _ _ _ _ _ Hrun), map_map. reflexivity.
  - intros Hnil. rewrite Hnil in Hrun. inversion Hrun. reflexivity.
Qed.

(** C1 (amended) on a dataset whose second item has an unknown label. *)
Lemma invalid_item_fails_batch_witness :
  exists detail w',
    api_batch (env_replying (Responded reply_200_score_2))
      {| service_url := "http://localhost:8000";
         dataset := [["Great course, learned a lot."; "positive"];
                     ["Overall fine, nothing special."; "mixed"]] |}
      World_new
    = (inr {| status_code := 400; content := Detail detail |}, w') /\
    posts w' = posts World_new ++
               [(endpoint_of "http://localhost:8000", "Great course, learned a lot.")].
Proof.
  destruct (invalid_item_fails_batch
              (env_replying (Responded reply_200_score_2))
              {| service_url := "http://localhost:8000";
                 dataset := [["Great course, learned a lot."; "positive"];
                             ["Overall fine, nothing special."; "mixed"]] |}
              World_new)
    as (detail & w' & H1 & H2 & _).
  - apply Exists_cons_tl, Exists_cons_hd. reflexivity.
  - exists detail, w'. split; [exact H1 | exact H2].
Defined.





(** ** The examples of the specification *)

(** The service always answers [{"score": 2.0}]: the text is labelled
    [positive], which is its gold label. *)
Example positive_text_is_correct :
  exists avg w',
    api_batch (env_replying (Responded reply_200_score_2))
      {| service_url := "http://localhost:8000";
         dataset := [["positive text"; "positive"]] |}
      World_new
    = (inr {| status_code := 200;
              content :=
                BatchPayload 1 1 F64.one avg
                  [{| row_text := "positive text";
                      row_gold := "positive";
                      row_score := Some (S754_finite false 4503599627370496 (-51));
                      row_pred := Some positive;
                      row_ok := true;
                      row_latency_ms := F64.lit_1000;
                      row_error := None |}] |}, w').
Proof. do 2 eexists. vm_compute. reflexivity. Qed.

(** Every call times out: three items, none correct, accuracy 0, and three
    rows without a score and with an error text. *)
Example all_calls_time_out :
  exists avg rows w',
    api_batch env_timing_out
      {| service_url := "http://localhost:8000"; dataset := three_items |}
      World_new
    = (inr {| status_code := 200;
              content := BatchPayload 3 0 F64.zero avg rows |}, w') /\
    map row_score rows = [None; None; None] /\
    map row_error rows =
    [Some (Some (exception_text read_timeout));
     Some (Some (exception_text read_timeout));
     Some (Some (exception_text read_timeout))] /\
    map row_text rows = map text_of three_items /\
    total_requests (metrics w') = 3 /\
    failed_requests (metrics w') = 3.
Proof.
  do 3 eexists. split; [vm_compute; reflexivity|]. repeat split; reflexivity.
Qed.

(** ** What every call and every run guarantees *)


(** The clock is only ever read forwards. *)
Lemma calls_run_ticks (env : Env) (url : string) (texts : list string)
  (w w' : World) (ps : list (option float * Info)) :
  calls_run env url texts w ps w' -> (ticks w <= ticks w')%nat.
Proof.
  induction 1 as [w|text texts w w1 w2 p ps Hcall _ IH]; [lia|].
  destruct (call_external_service_returns env url text w)
    as (score & info & w1' & Hcall' & _ & _ & _ & Hl & _).
  rewrite Hcall in Hcall'. injection Hcall' as _ <-.
  destruct Hl as [[_ Ht]|[_ Ht]]; lia.
Qed.

(** No exception leaves [call_external_service]: whatever the transport and
    the reply do, it returns a pair, and the score is absent exactly when
    the error text is present. *)
Theorem call_never_raises (env : Env) (url text : string) (w : World) :
  exists score info w',
    call_external_service env url text w = (inr (score, info), w') /\
    (score = None <-> info_error info <> None).
Proof.
  destruct (call_external_service_returns env url text w)
    as (score & info & w' & Hcall & _ & Herr & _).
  exists score, info, w'. split; [exact Hcall|].
  destruct score as [s|].
  - rewrite Herr. split; [discriminate | intros H; contradiction H; reflexivity].
  - destruct Herr as [m ->]. split; [discriminate | reflexivity].
Qed.



(** Over a run of calls during which every reading of the clock is finite,
    no NaN enters the latency log: from [Metrics()] on, the log [snapshot]
    sorts holds numbers only. *)
Theorem recorded_latencies_are_numbers (env : Env) (url : string)
  (texts : list string) (w w' : World) (ps : list (option float * Info)) :
  calls_run env url texts w ps w' ->
  (forall k, (ticks w <= k < ticks w')%nat ->
             F64.is_finite (perf_counter_at env k) = true) ->
  Forall (fun x => F64.is_nan x = false) (latencies_ms (metrics w)) ->
  Forall (fun x => F64.is_nan x = false) (latencies_ms (metrics w')).
Proof.
  induction 1 as [w|text texts w w1 w2 p ps Hcall Hrun IH]; intros Hfin Hlog;
    [exact Hlog|].
  pose proof (calls_run_ticks _ _ _ _ _ _ Hrun) as Ht.
  destruct (call_latencies_not_nan env url text w w1 p Hcall) as [Hlog1 Ht1];
    [intros k Hk; apply Hfin; lia | exact Hlog |].
  apply IH; [intros k Hk; apply Hfin; lia | exact Hlog1].
Qed.

(** Two calls from the initial state, each answered [{"score": 2.0}] under
    the clock that advances by one second per reading: two latencies, both
    numbers. *)
Lemma recorded_latencies_are_numbers_witness :
  exists ps w',
    calls_run (env_replying (Responded reply_200_score_2)) "http://localhost:8000"
      ["Great course, learned a lot."; "Overall fine, nothing special."]
      World_new ps w' /\
    latencies_ms (metrics w') = [F64.lit_1000; F64.lit_1000] /\
    Forall (fun x => F64.is_nan x = false) (latencies_ms (metrics w')).
Proof.
  eassert (Hrun : calls_run (env_replying (Responded reply_200_score_2))
                   "http://localhost:8000"
                   ["Great course, learned a lot."; "Overall fine, nothing special."]
                   World_new
                   _ _).
  { econstructor; [vm_compute; reflexivity|].
    econstructor; [vm_compute; reflexivity|]. constructor. }
  do 2 eexists. split; [exact Hrun|]. split; [reflexivity|].
  apply (recorded_latencies_are_numbers _ _ _ _ _ _ Hrun).
  - intros k Hk. cbn [ticks] in Hk.
    do 4 (destruct k as [|k]; [reflexivity|]). lia.
  - constructor.
Defined.

(** ** Signs and sizes of finite doubles *)

(** The result of a rounding has the sign it was given. *)
Lemma binary_round_aux_sign (sx : bool) (m e : Z) (l : location) :
  0 <= m ->
  binary_round_aux 53 1024 sx m e l = S754_zero sx \/
  binary_round_aux 53 1024 sx m e l = S754_infinity sx \/
  exists m' e', binary_round_aux 53 1024 sx m e l = S754_finite sx m' e'.
Proof.
  intros H. unfold binary_round_aux.
  pose proof (shr_fexp_nonneg m e l H) as H1.
  destruct (shr_fexp 53 1024 m e l) as [mrs' e']. cbn [fst] in H1.
  pose proof (shr_fexp_nonneg _ e' loc_Exact
                (round_nearest_even_nonneg _ (loc_of_shr_record mrs') H1)) as H2.
  destruct (shr_fexp 53 1024 _ e' loc_Exact) as [mrs'' e'']. cbn [fst] in H2.
  destruct (shr_m mrs'') as [|p|p]; try lia; [left; reflexivity|].
  destruct (e'' <=? 1024 - 53); [right; right; eauto | right; left; reflexivity].
Qed.

Lemma binary_round_sign (sx : bool) (m : BinNums.positive) (e : Z) :
  binary_round 53 1024 sx m e = S754_zero sx \/
  binary_round 53 1024 sx m e = S754_infinity sx \/
  exists m' e', binary_round 53 1024 sx m e = S754_finite sx m' e'.
Proof.
  unfold binary_round. destruct (shl_align _ _ _) as [mz ez].
  apply binary_round_aux_sign. lia.
Qed.

Lemma not_negative_leb (x : float) : not_negative x -> F64.leb F64.zero x = true.
Proof. destruct x as [s|s| |s m e]; cbn; try tauto; intros ->; reflexivity. Qed.

Lemma leb_not_negative (x : float) : F64.leb F64.zero x = true -> not_negative x.
Proof. destruct x as [s|[]| |[] m e]; cbn; try tauto; discriminate. Qed.

Lemma mul_1000_not_negative (x : float) :
  not_negative x -> not_negative (F64.mul x F64.lit_1000).
Proof.
  unfold F64.mul, F64.lit_1000, F64.prec, F64.emax.
  destruct x as [s|s| |s m e]; cbn [not_negative SFmul]; try tauto.
  - intros ->. reflexivity.
  - intros ->. cbn [xorb].
    destruct (binary_round_aux_sign false (Zpos (m * 8796093022208000)) (e + -43)
                loc_Exact ltac:(lia)) as [-> | [-> | (m' & e' & ->)]]; cbn; auto.
Qed.

(** What [bounded] says of a mantissa and its exponent. *)
Lemma bounded_inv (m : BinNums.positive) (e : Z) :
  bounded 53 1024 m e = true ->
  Zpos m < 2 ^ 53 /\ -1074 <= e <= 971 /\ (-1074 < e -> 2 ^ 52 <= Zpos m).
Proof.
  unfold bounded, canonical_mantissa, fexp, emin. intros H.
  apply andb_true_iff in H. destruct H as [H1 H2].
  apply Z.eqb_eq in H1. apply Z.leb_le in H2.
  destruct (digits2_bounds m) as [Hlo Hhi].
  assert (Hd : Zpos (digits2_pos m) <= 53) by lia.
  split; [|split; [lia|]].
  - eapply Z.lt_le_trans; [exact Hhi|]. apply Z.pow_le_mono_r; lia.
  - intros He. assert (Hd' : Zpos (digits2_pos m) = 53) by lia.
    rewrite Hd' in Hlo. exact Hlo.
Qed.

Lemma shl_align_fst (m : BinNums.positive) (e ez : Z) :
  ez <= e -> Zpos (fst (shl_align m e ez)) = Zpos m * 2 ^ (e - ez).
Proof.
  intros H. unfold shl_align. destruct (ez - e) as [|d|d] eqn:E; cbn [fst].
  - replace (e - ez) with 0 by lia. lia.
  - lia.
  - rewrite pos_iter_xO. f_equal. f_equal. lia.
Qed.

(** On proper doubles of the same sign, [<=] compares the values. *)
Lemma finite_le_scaled (m1 m2 : BinNums.positive) (e1 e2 : Z) :
  bounded 53 1024 m1 e1 = true -> bounded 53 1024 m2 e2 = true ->
  SFleb (S754_finite false m1 e1) (S754_finite false m2 e2) = true ->
  Zpos m1 * 2 ^ (e1 - Z.min e1 e2) <= Zpos m2 * 2 ^ (e2 - Z.min e1 e2).
Proof.
  intros B1 B2. apply bounded_inv in B1, B2.
  destruct B1 as (H1 & He1 & Hn1), B2 as (H2 & He2 & Hn2).
  unfold SFleb. cbn [SFcompare].
  destruct (Z.compare_spec e1 e2) as [E|E|E].
  - subst e2. rewrite Z.min_id, Z.sub_diag, !Z.mul_1_r.
    change (Pos.compare_cont Eq m1 m2) with (Pos.compare m1 m2).
    destruct (Pos.compare_spec m1 m2); try discriminate; intros _; lia.
  - intros _. rewrite Z.min_l by lia. rewrite Z.sub_diag, Z.mul_1_r.
    assert (2 ^ 1 <= 2 ^ (e2 - e1)) by (apply Z.pow_le_mono_r; lia).
    specialize (Hn2 ltac:(lia)). change (2 ^ 53) with (2 ^ 52 * 2) in H1.
    change (2 ^ 1) with 2 in *. nia.
  - discriminate.
Qed.

(** The difference of two proper finite doubles is not below zero when the
    second is not above the first. *)
Lemma sub_not_negative (t0 t : float) :
  F64.is_finite t0 = true -> F64.is_finite t = true ->
  valid_binary 53 1024 t0 = true -> valid_binary 53 1024 t = true ->
  F64.leb t0 t = true ->
  not_negative (F64.sub t t0).
Proof.
  unfold F64.sub, F64.leb, F64.prec, F64.emax.
  destruct t0 as [s0|s0| |s0 m0 e0], t as [s|s| |s m e]; try discriminate;
    intros _ _ V0 V Hle; cbn [SFsub valid_binary] in *.
  - destruct s, s0; exact I.
  - destruct s; [discriminate Hle | reflexivity].
  - destruct s0; [reflexivity | discriminate Hle].
  - set (ez := Z.min e e0).
    rewrite !shl_align_fst by (subst ez; lia).
    assert (Hp : 0 < 2 ^ (e - ez) /\ 0 < 2 ^ (e0 - ez))
      by (split; apply Z.pow_pos_nonneg; subst ez; lia).
    assert (HM : 0 <= cond_Zopp s (Zpos m * 2 ^ (e - ez)) -
                      cond_Zopp s0 (Zpos m0 * 2 ^ (e0 - ez))).
    { destruct s, s0; cbn [cond_Zopp].
      - (* both negative *)
        assert (Hle' : SFleb (S754_finite false m e) (S754_finite false m0 e0) = true).
        { revert Hle. unfold SFleb. cbn [SFcompare].
          rewrite (Z.compare_antisym e e0).
          change (Pos.compare_cont Eq m0 m) with (Pos.compare m0 m).
          change (Pos.compare_cont Eq m m0) with (Pos.compare m m0).
          rewrite (Pos.compare_antisym m m0).
          destruct (e ?= e0); cbn; auto.
          destruct (m ?= m0)%positive; cbn; auto. }
        pose proof (finite_le_scaled _ _ _ _ V V0 Hle') as H.
        fold ez in H. lia.
      - discriminate Hle.
      - nia.
      - pose proof (finite_le_scaled _ _ _ _ V0 V Hle) as H.
        rewrite Z.min_comm in H. fold ez in H. lia. }
    set (M := cond_Zopp s _ - cond_Zopp s0 _) in *. clearbody M.
    destruct M as [|M|M]; try lia; cbn [binary_normalize not_negative]; [exact I|].
    destruct (binary_round_sign false M ez) as [-> | [-> | (m' & e' & ->)]];
      cbn; auto.
Qed.

(** A latency measured between two proper finite readings of a clock that
    did not go back is not below zero. *)
Lemma elapsed_ms_not_negative (t0 t : float) :
  F64.is_finite t0 = true -> F64.is_finite t = true ->
  valid_binary 53 1024 t0 = true -> valid_binary 53 1024 t = true ->
  F64.leb t0 t = true ->
  F64.leb F64.zero (elapsed_ms t0 t) = true.
Proof.
  intros. apply not_negative_leb. unfold elapsed_ms.
  apply mul_1000_not_negative, sub_not_negative; assumption.
Qed.



(** ** The base URL *)

Lemma rstrip_slash_app_slash (s : string) :
  rstrip_slash (s ++ "/") = rstrip_slash s.
Proof.
  induction s as [|c s IH]; [reflexivity|].
  cbn [append rstrip_slash]. rewrite IH. reflexivity.
Qed.

Lemma rstrip_slash_split (s : string) :
  exists t, s = (rstrip_slash s ++ t)%string /\
            Forall (fun c => c = "/"%char) (list_ascii_of_string t).
Proof.
  induction s as [|c s (t & Hs & Ht)]; [exists ""%string; split; [reflexivity | constructor]|].
  cbn [rstrip_slash]. destruct (rstrip_slash s) as [|d u] eqn:E.
  - destruct (Ascii.eqb c "/") eqn:Ec.
    + apply Ascii.eqb_eq in Ec. subst c. exists (String "/" t). split.
      * cbn [append] in *. congruence.
      * constructor; [reflexivity | exact Ht].
    + exists t. split; [cbn [append] in *; congruence | exact Ht].
  - exists t. split; [|exact Ht]. cbn [append] in *. congruence.
Qed.

Lemma rstrip_slash_no_slash (s u : string) :
  rstrip_slash s <> (u ++ "/")%string.
Proof.
  revert u. induction s as [|c s IH]; intros u.
  - destruct u; discriminate.
  - cbn [rstrip_slash]. destruct (rstrip_slash s) as [|d t] eqn:E.
    + destruct (Ascii.eqb c "/") eqn:Ec.
      * destruct u; discriminate.
      * destruct u as [|e [|f u]]; cbn [append]; try discriminate.
        intros [= ->]. cbv in Ec. discriminate.
    + destruct u as [|e u]; cbn [append]; [discriminate|].
      intros [= _ H]. exact (IH u H).
Qed.

(** Trailing slashes of the base URL do not count: the request goes to the
    base URL without any of them, followed by [/v1/sentiment], and that is
    the endpoint the call reports. *)
Theorem trailing_slashes_are_ignored (env : Env) (url text : string) (w : World) :
  call_external_service env (url ++ "/") text w =
  call_external_service env url text w /\
  (exists t, url = (rstrip_slash url ++ t)%string /\
             Forall (fun c => c = "/"%char) (list_ascii_of_string t)) /\
  (forall u, rstrip_slash url <> (u ++ "/")%string) /\
  exists score info w',
    call_external_service env url text w = (inr (score, info), w') /\
    info_endpoint info = (rstrip_slash url ++ "/v1/sentiment")%string /\
    posts w' = posts w ++ [((rstrip_slash url ++ "/v1/sentiment")%string, text)].
Proof.
  split; [|split; [|split]].
  - unfold call_external_service. rewrite rstrip_slash_app_slash. reflexivity.
  - apply rstrip_slash_split.
  - apply rstrip_slash_no_slash.
  - destruct (call_external_service_returns env url text w)
      as (score & info & w' & Hcall & Hposts & _ & _ & _ & Hend).
    exists score, info, w'. split; [exact Hcall|]. split; [exact Hend | exact Hposts].
Qed.

(** ** The metrics object over any sequence of records *)

Lemma last_app_default {A : Type} (l1 l2 : list A) (d : A) :
  last (l1 ++ l2) d = last l2 (last l1 d).
Proof.
  induction l2 as [|b l2 IH] using rev_ind.
  - rewrite app_nil_r. reflexivity.
  - rewrite app_assoc, !last_last. reflexivity.
Qed.

Lemma record_all_from (calls : list (bool * float)) (m : Metrics) :
  let m' := record_all calls m in
  total_requests m' = total_requests m + Z.of_nat (List.length calls) /\
  success_requests m' = success_requests m + count_ok calls /\
  failed_requests m' =
    failed_requests m + (Z.of_nat (List.length calls) - count_ok calls) /\
  latencies_ms m' = latencies_ms m ++ map snd calls /\
  last_latency_ms m' =
    last (map (fun c => Some (snd c)) calls) (last_latency_ms m).
Proof.
  induction calls as [|c calls IH] using rev_ind.
  - cbn. rewrite app_nil_r. repeat split; lia.
  - cbv zeta in *. rewrite record_all_app. cbn [record_all fold_left].
    destruct IH as (Ht & Hs & Hf & Hl & _).
    rewrite count_ok_snoc, length_app, !map_app, last_app_default.
    cbn [List.length map last].
    unfold record at 1 2 3 4 5.
    cbn [total_requests success_requests failed_requests latencies_ms
         last_latency_ms].
    rewrite Ht, Hs, Hf, Hl, <- app_assoc.
    destruct (fst c); repeat split; lia.
Qed.

Lemma record_all_consistent (calls : list (bool * float)) (m : Metrics) :
  metrics_consistent m -> metrics_consistent (record_all calls m).
Proof.
  intros (H1 & H2 & H3 & H4 & H5).
  destruct (record_all_from calls m) as (Ht & Hs & Hf & Hl & Hla).
  pose proof (count_ok_bounds calls) as Hb.
  unfold metrics_consistent. rewrite Ht, Hs, Hf, Hl, Hla.
  rewrite length_app, length_map, map_app, last_app_default, map_map, H5.
  repeat split; try lia.
Qed.

(** Every object that is reached from [Metrics()] by calls to [record] is
    consistent: the counters add up, the log holds the latencies of the
    calls in the order of the calls, one per request, and
    [last_latency_ms] is that of the last call ([None] before the first). *)
Theorem record_keeps_log (calls : list (bool * float)) :
  let m := record_all calls Metrics_new in
  metrics_consistent m /\
  latencies_ms m = map snd calls /\
  last_latency_ms m = last (map (fun c => Some (snd c)) calls) None.
Proof.
  cbv zeta. split; [|split].
  - apply record_all_consistent. unfold metrics_consistent. cbn.
    repeat split; lia.
  - apply (record_all_from calls Metrics_new).
  - apply (record_all_from calls Metrics_new).
Qed.

(** ** What the calls of a run record *)

(** A call records itself last, after at most one other record of a
    failure. *)
Lemma call_records (env : Env) (url text : string) (w w1 : World)
  (score : option float) (info : Info) :
  call_external_service env url text w = (inr (score, info), w1) ->
  exists pre,
    (pre = [] \/ exists l, pre = [(false, l)]) /\
    metrics w1 =
    record_all (pre ++ [(match score with Some _ => true | None => false end,
                         info_latency_ms info)]) (metrics w).
Proof.
  intros Hcall.
  destruct (call_external_service_returns env url text w)
    as (score' & info' & w' & Hcall' & _ & _ & Hm & _).
  rewrite Hcall in Hcall'. injection Hcall' as <- <- <-.
  destruct (keyless_without_score (sent env url text w)).
  - destruct Hm as [-> ->]. exists [(false, latency_at env w 1)].
    split; [right; eexists; reflexivity | reflexivity].
  - exists []. split; [left; reflexivity | exact Hm].
Qed.

Lemma run_records (env : Env) (url : string) (texts : list string)
  (w w' : World) (ps : list (option float * Info)) :
  calls_run env url texts w ps w' ->
  exists calls,
    metrics w' = record_all calls (metrics w) /\
    count_ok calls =
    Z.of_nat (List.length
                (filter (fun p => match fst p with
                                  | Some _ => true
                                  | None => false
                                  end) ps)) /\
    (List.length ps <= List.length calls)%nat /\
    forall d, last (map (fun c => Some (snd c)) calls) d =
              last (map (fun p => Some (info_latency_ms (snd p))) ps) d.
Proof.
  induction 1 as [w|text texts w w1 w2 [score info] ps Hcall _ IH].
  - exists []. repeat split; reflexivity.
  - destruct IH as (calls & Hm & Hc & Hlen & Hlast).
    destruct (call_records _ _ _ _ _ _ _ Hcall) as (pre & Hpre & Hm1).
    exists ((pre ++ [(match score with Some _ => true | None => false end,
                      info_latency_ms info)]) ++ calls).
    split; [|split; [|split]].
    + rewrite record_all_app, <- Hm1. exact Hm.
    + unfold count_ok in *. rewrite !filter_app, !length_app.
      cbn [filter fst List.length].
      destruct Hpre as [->|[l ->]]; destruct score; cbn [filter fst List.length]; lia.
    + rewrite !length_app. cbn [List.length]. lia.
    + intros d. rewrite !map_app, !last_app_default.
      cbn [map snd]. change (?a :: map ?f ps) with ([a] ++ map f ps).
      rewrite !last_app_default. cbn [last]. apply Hlast.
Qed.

(** Whatever the dataset, the world a batch leaves is the world after the
    calls of some of its texts. *)
Lemma api_batch_world (env : Env) (req : BatchRequest) (w : World) :
  exists texts ps w',
    calls_run env (service_url req) texts w ps w' /\
    snd (api_batch env req w) = w'.
Proof.
  destruct (Forall_Exists_dec (fun item => valid_item item = true)
              (fun item => bool_dec (valid_item item) true) (dataset req))
    as [Hv|Hex].
  - destruct (api_batch_valid env req w Hv)
      as (ps & w' & accuracy & avg & Hrun & Hbatch & _).
    exists (map text_of (dataset req)), ps, w'. split; [exact Hrun|].
    rewrite Hbatch. reflexivity.
  - assert (Hex' : Exists (fun item => valid_item item = false) (dataset req)).
    { apply Exists_impl with (2 := Hex). intros item H.
      destruct (valid_item item); congruence. }
    destruct (api_batch_loop_invalid env (service_url req) (dataset req) Hex'
                {| rows_out := []; latencies := []; correct := 0; n := 0 |} w)
      as (ps & w' & detail & Hrun & Hloop).
    exists (map text_of (valid_prefix (dataset req))), ps, w'.
    split; [exact Hrun|].
    unfold api_batch. unfold bind at 1. rewrite Hloop. reflexivity.
Qed.

Lemma api_score_unfold (env : Env) (req : ScoreRequest) (w w' : World)
  (score : option float) (info : Info) :
  call_external_service env (score_service_url req) (score_text req) w =
  (inr (score, info), w') ->
  api_score env req w =
  (match score with
   | Some s =>
       JSONResponse_init 200
         (ScorePayload s (score_to_label s)
            (info_latency_ms info) (info_warning info))
   | None =>
       inr {| status_code := 502;
              content := Detail match info_error info with
                                | Some m => m
                                | None => [Lit "Unknown error."]
                                end |}
   end, w').
Proof.
  intros Hcall. unfold api_score, bind. rewrite Hcall.
  destruct score; reflexivity.
Qed.

(** The three endpoints keep the metrics object consistent: after
    [api_score] or [api_batch] on any request the counters still add up
    and the log still has one latency per counted request, and
    [api_metrics] changes nothing at all. *)
Theorem endpoints_keep_metrics_consistent (env : Env) (w : World) :
  metrics_consistent (metrics w) ->
  (forall req, metrics_consistent (metrics (snd (api_score env req w)))) /\
  (forall req, metrics_consistent (metrics (snd (api_batch env req w)))) /\
  snd (api_metrics w) = w.
Proof.
  intros Hc. split; [|split].
  - intros req.
    destruct (call_external_service_returns env (score_service_url req)
                (score_text req) w) as (score & info & w' & Hcall & _).
    rewrite (api_score_unfold _ _ _ _ _ _ Hcall). cbn [snd].
    destruct (call_records _ _ _ _ _ _ _ Hcall) as (pre & _ & ->).
    apply record_all_consistent, Hc.
  - intros req. destruct (api_batch_world env req w) as (texts & ps & w' & Hrun & ->).
    destruct (run_records _ _ _ _ _ _ Hrun) as (calls & -> & _).
    apply record_all_consistent, Hc.
  - unfold api_metrics, bind, lift.
    destruct (snapshot (metrics w)); reflexivity.
Qed.

(** From the initial state the metrics are consistent after a batch over
    the three sample items, whatever the service replies. *)
Lemma endpoints_keep_metrics_consistent_witness :
  metrics_consistent
    (metrics (snd (api_batch (env_replying (Responded reply_200_score_2))
                     {| service_url := "http://localhost:8000";
                        dataset := three_items |}
                     World_new))).
Proof.
  apply (endpoints_keep_metrics_consistent
           (env_replying (Responded reply_200_score_2)) World_new).
  unfold metrics_consistent. cbn. repeat split; lia.
Defined.

(** [api_score] returns what the constructor of the response makes of its
    payload. When the call returned a score, the payload holds that score,
    the label of the score, the latency and the warning of the call: it is
    answered with a 200 when the score and the latency are finite, and the
    constructor raises [ValueError], after the call was recorded, when the
    score is a NaN or an infinity. When the call returned no score, the
    answer is a 502 with the error text of the call; the fallback text of
    line 785 is never sent. *)
Theorem api_score_answers (env : Env) (req : ScoreRequest) (w : World) :
  exists score info w',
    call_external_service env (score_service_url req) (score_text req) w =
    (inr (score, info), w') /\
    match score with
    | Some s =>
        info_error info = None /\
        api_score env req w =
        (JSONResponse_init 200
           (ScorePayload s (score_to_label s)
              (info_latency_ms info) (info_warning info)), w') /\
        (F64.is_finite s = true -> F64.is_finite (info_latency_ms info) = true ->
         api_score env req w =
         (inr {| status_code := 200;
                 content := ScorePayload s (score_to_label s)
                              (info_latency_ms info) (info_warning info) |}, w')) /\
        (F64.is_finite s = false ->
         exists e, api_score env req w = (inl e, w') /\
                   exn_type e = "ValueError"%string)
    | None =>
        exists m,
          info_error info = Some m /\
          api_score env req w =
          (inr {| status_code := 502; content := Detail m |}, w')
    end.
Proof.
  destruct (call_external_service_returns env (score_service_url req)
              (score_text req) w) as (score & info & w' & Hcall & _ & Herr & _).
  exists score, info, w'. split; [exact Hcall|].
  rewrite (api_score_unfold _ _ _ _ _ _ Hcall).
  destruct score as [s|].
  - split; [exact Herr|]. split; [reflexivity|]. split.
    + intros Hs Hl. rewrite JSONResponse_init_finite; [reflexivity|].
      cbn [content_floats forallb]. rewrite Hs, Hl. reflexivity.
    + intros Hs.
      destruct (JSONResponse_init_raises 200
                  (ScorePayload s (score_to_label s) (info_latency_ms info)
                     (info_warning info)) s) as (e & -> & He);
        [left; reflexivity | exact Hs |].
      exists e. split; [reflexivity | exact He].
  - destruct Herr as [m Hm]. exists m. rewrite Hm. split; reflexivity.
Qed.



(** ** Batches and the metrics *)







(** The loop up to its first invalid item, the detail of the response
    given. *)
Lemma api_batch_loop_first_invalid (env : Env) (url : string)
  (pre : list (list string)) (item : list string) (suf : list (list string)) :
  Forall (fun item => valid_item item = true) pre ->
  valid_item item = false ->
  forall (vars : BatchVars) (w : World),
  exists ps w',
    calls_run env url (map text_of pre) w ps w' /\
    api_batch_loop env url (pre ++ item :: suf) vars w =
    (inr (inl {| status_code := 400;
                 content := Detail (detail_of_invalid item) |}), w').
Proof.
  intros Hpre Hit. induction Hpre as [|it pre Hv _ IH]; intros vars w.
  - exists [], w. split; [constructor|]. cbn [app].
    destruct item as [|text [|gold [|x item]]]; cbn [api_batch_loop detail_of_invalid];
      try reflexivity.
    cbn [valid_item] in Hit. rewrite Hit. reflexivity.
  - destruct (valid_item_inv _ Hv) as (text & gold & -> & Hgold).
    destruct (call_external_service_returns env url text w)
      as (score & info & w1 & Hcall & _).
    cbn [app api_batch_loop]. rewrite Hgold. cbn [negb].
    unfold bind at 1. rewrite Hcall.
    destruct score as [score|].
    + match goal with |- context [api_batch_loop env url _ ?v w1] =>
        destruct (IH v w1) as (ps & w2 & Hrun & ->) end.
      exists ((Some score, info) :: ps), w2. split; [|reflexivity].
      cbn [map]. econstructor; [exact Hcall | exact Hrun].
    + match goal with |- context [api_batch_loop env url _ ?v w1] =>
        destruct (IH v w1) as (ps & w2 & Hrun & ->) end.
      exists ((None, info) :: ps), w2. split; [|reflexivity].
      cbn [map]. econstructor; [exact Hcall | exact Hrun].
Qed.

(** The 400 response of a batch reports the first item that fails a test,
    and the test on its shape before the test on its label: an item that
    is not a pair gets the text on the shape of the dataset, a pair with
    an unknown label gets the text that quotes the label. The items after
    it are not looked at. *)
Theorem first_invalid_item_is_reported (env : Env) (url : string)
  (pre : list (list string)) (item : list string) (suf : list (list string))
  (w : World) :
  Forall (fun item => valid_item item = true) pre ->
  valid_item item = false ->
  exists w',
    api_batch env {| service_url := url; dataset := pre ++ item :: suf |} w =
    (inr {| status_code := 400; content := Detail (detail_of_invalid item) |}, w') /\
    posts w' = posts w ++ map (fun it => (endpoint_of url, text_of it)) pre.
Proof.
  intros Hpre Hit.
  destruct (api_batch_loop_first_invalid env url pre item suf Hpre Hit
              {| rows_out := []; latencies := []; correct := 0; n := 0 |} w)
    as (ps & w' & Hrun & Hloop).
  exists w'. split.
  - unfold api_batch. cbn [service_url dataset]. unfold bind at 1.
    rewrite Hloop. reflexivity.
  - rewrite (calls_run_posts _ _ _ _ _ _ Hrun), map_map. reflexivity.
Qed.

(** A dataset whose second item has three fields and whose third has an
    unknown label: the response is about the second. *)
Lemma first_invalid_item_is_reported_witness :
  exists w',
    api_batch env_timing_out
      {| service_url := "http://localhost:8000";
         dataset := [["Great course, learned a lot."; "positive"];
                     ["Overall fine, nothing special."; "neutral"; "neutral"];
                     ["Mega godt kursus!"; "good"]] |}
      World_new =
    (inr {| status_code := 400;
            content := Detail [Lit "Dataset must be a list of [text, gold_label] pairs."] |},
     w') /\
    posts w' = [(endpoint_of "http://localhost:8000", "Great course, learned a lot.")].
Proof.
  apply (first_invalid_item_is_reported env_timing_out "http://localhost:8000"
           [["Great course, learned a lot."; "positive"]]
           ["Overall fine, nothing special."; "neutral"; "neutral"]
           [["Mega godt kursus!"; "good"]] World_new).
  - repeat constructor.
  - reflexivity.
Defined.

(** ** The order of the floats *)

Lemma leb_refl (x : float) : F64.is_nan x = false -> F64.leb x x = true.
Proof.
  unfold F64.leb, SFleb.
  destruct x as [[]|[]| |[] m e]; try reflexivity; try discriminate; intros _; cbn;
    rewrite Z.compare_refl, Pos.compare_cont_refl; reflexivity.
Qed.

Lemma leb_trans (x y z : float) :
  F64.leb x y = true -> F64.leb y z = true -> F64.leb x z = true.
Proof.
  unfold F64.leb, SFleb.
  destruct x as [sx|sx| |sx mx ex], y as [sy|sy| |sy my ey], z as [sz|sz| |sz mz ez];
    try destruct sx; try destruct sy; try destruct sz; cbn;
    try reflexivity; try discriminate; try (intros _ H; exact H);
    try (intros H _; exact H).
  all: destruct (Z.compare_spec ex ey), (Z.compare_spec ey ez), (Z.compare_spec ex ez);
    try reflexivity; try discriminate; try lia; subst.
  all: change (Pos.compare_cont Eq mx my) with (Pos.compare mx my);
    change (Pos.compare_cont Eq my mz) with (Pos.compare my mz);
    change (Pos.compare_cont Eq mx mz) with (Pos.compare mx mz).
  all: destruct (Pos.compare_spec mx my), (Pos.compare_spec my mz),
         (Pos.compare_spec mx mz); cbn;
    try reflexivity; try discriminate; try lia.
Qed.

Lemma leb_transitive :
  Relations_1.Transitive (fun a b : float => F64.leb a b = true).
Proof. intros x y z. apply leb_trans. Qed.

Lemma permutation_filter_length {A : Type} (f : A -> bool) (l l' : list A) :
  Permutation l l' -> List.length (filter f l) = List.length (filter f l').
Proof.
  induction 1 as [|a l l' _ IH|a b l|l l' l'' _ IH1 _ IH2]; cbn [filter].
  - reflexivity.
  - destruct (f a); cbn [List.length]; congruence.
  - destruct (f a), (f b); reflexivity.
  - congruence.
Qed.

Lemma filter_all_length {A : Type} (f : A -> bool) (l : list A) :
  Forall (fun a => f a = true) l -> List.length (filter f l) = List.length l.
Proof.
  induction 1 as [|a l Ha _ IH]; [reflexivity|].
  cbn [filter]. rewrite Ha. cbn [List.length]. congruence.
Qed.

(** In an ascending list the element at rank [k] is at least each of the
    first [k + 1] elements and at most each element from rank [k] on. *)
Lemma ascending_rank (s : list float) (k : nat) (x : float) :
  ascending s ->
  Forall (fun y => F64.is_nan y = false) s ->
  nth_error s k = Some x ->
  Forall (fun y => F64.leb y x = true) (firstn (S k) s) /\
  Forall (fun y => F64.leb x y = true) (skipn k s).
Proof.
  intros Hs. apply (Sorted_StronglySorted leb_transitive) in Hs.
  revert k. induction Hs as [|a s Hs IH Ha]; intros k Hn Hk.
  - destruct k; discriminate Hk.
  - inversion Hn as [|? ? Hna Hn']; subst.
    destruct k as [|k]; cbn [nth_error] in Hk.
    + injection Hk as ->. cbn [firstn skipn]. split.
      * repeat constructor. apply leb_refl, Hna.
      * constructor; [apply leb_refl, Hna | exact Ha].
    + destruct (IH k Hn' Hk) as [IH1 IH2]. split.
      * cbn [firstn]. constructor; [|exact IH1].
        rewrite Forall_forall in Ha. apply Ha.
        apply nth_error_In with (n := k). exact Hk.
      * exact IH2.
Qed.

(** ** The snapshot *)

(** [snapshot] returns on every log of at most [2^49] latencies; the
    average is absent exactly on the empty log, the p95 exactly on a log
    of fewer than 20, and otherwise it is the element of the sorted log at
    the rank [19 * (count - 1) / 20]. *)
Lemma snapshot_returns (m : Metrics) :
  Z.of_nat (List.length (latencies_ms m)) <= 2 ^ 49 ->
  exists a p,
    snapshot m =
    inr {| snap_total_requests := total_requests m;
           snap_success_requests := success_requests m;
           snap_failed_requests := failed_requests m;
           snap_last_latency_ms := last_latency_ms m;
           snap_avg_latency_ms := a;
           snap_p95_latency_ms := p |} /\
    (a = None <-> latencies_ms m = []) /\
    (p = None <-> Z.of_nat (List.length (latencies_ms m)) < 20) /\
    (20 <= Z.of_nat (List.length (latencies_ms m)) ->
     p <> None /\
     p = nth_error (sorted (latencies_ms m))
           (Z.to_nat (19 * (Z.of_nat (List.length (latencies_ms m)) - 1) / 20))).
Proof.
  intros Hlen. unfold snapshot.
  destruct (latencies_ms m) as [|x0 xs] eqn:Hxs.
  - exists None, None. cbn. repeat split; try lia; try discriminate.
  - destruct (mean_nonempty x0 xs) as (a & ->).
    destruct (20 <=? Z.of_nat (List.length (x0 :: xs))) eqn:E.
    + apply Z.leb_le in E.
      rewrite sorted_length, p95_index_exact by (cbn [List.length] in *; lia).
      destruct (getitem_nth (sorted (x0 :: xs))
                  (19 * (Z.of_nat (List.length (x0 :: xs)) - 1) / 20))
        as (x & Hnth & ->).
      { rewrite sorted_length. split.
        - apply Z.div_pos; lia.
        - apply Z.div_lt_upper_bound; lia. }
      exists (Some a), (Some x). split; [reflexivity|].
      repeat split; try discriminate; try lia.
      symmetry. exact Hnth.
    + apply Z.leb_gt in E. exists (Some a), None.
      split; [reflexivity|]. repeat split; try discriminate; try lia.
Qed.



(** The p95 of a log of [count >= 20] latencies without NaN is one of the
    logged latencies; at least [19 * (count - 1) / 20 + 1] of them are at
    most the p95 and at least [count - 19 * (count - 1) / 20] of them are
    at least the p95. *)
Theorem p95_bounds_the_log (m : Metrics) :
  let xs := latencies_ms m in
  let count := Z.of_nat (List.length xs) in
  20 <= count <= 2 ^ 49 ->
  Forall (fun x => F64.is_nan x = false) xs ->
  exists s x,
    snapshot m = inr s /\
    snap_p95_latency_ms s = Some x /\
    In x xs /\
    19 * (count - 1) / 20 + 1 <=
      Z.of_nat (List.length (filter (fun y => F64.leb y x) xs)) /\
    count - 19 * (count - 1) / 20 <=
      Z.of_nat (List.length (filter (fun y => F64.leb x y) xs)).
Proof.
  cbv zeta. intros Hlen Hnan.
  destruct (snapshot_returns m) as (a & p & Hs & _ & _ & Hp); [lia|].
  destruct (Hp (proj1 Hlen)) as [Hp1 Hp2].
  destruct p as [x|]; [|congruence]. symmetry in Hp2.
  set (k := Z.to_nat (19 * (Z.of_nat (List.length (latencies_ms m)) - 1) / 20)) in *.
  assert (Hk : (k < List.length (latencies_ms m))%nat).
  { rewrite <- (sorted_length (latencies_ms m)).
    apply nth_error_Some. rewrite Hp2. discriminate. }
  assert (Hk' : Z.of_nat k = 19 * (Z.of_nat (List.length (latencies_ms m)) - 1) / 20).
  { subst k. apply Z2Nat.id. apply Z.div_pos; lia. }
  pose proof (sorted_permutation (latencies_ms m)) as Hperm.
  assert (Hnan' : Forall (fun y => F64.is_nan y = false) (sorted (latencies_ms m))).
  { eapply Permutation_Forall; [symmetry; exact Hperm | exact Hnan]. }
  destruct (ascending_rank _ k x (sorted_ascending _ Hnan) Hnan' Hp2) as [Hlo Hhi].
  eexists _, x. split; [exact Hs|]. split; [reflexivity|]. split; [|split].
  - apply (Permutation_in _ Hperm). apply nth_error_In with (n := k). exact Hp2.
  - rewrite <- (permutation_filter_length _ _ _ Hperm).
    rewrite <- (firstn_skipn (S k) (sorted (latencies_ms m))) at 1.
    rewrite filter_app, length_app, (filter_all_length _ _ Hlo), length_firstn.
    rewrite sorted_length. lia.
  - rewrite <- (permutation_filter_length _ _ _ Hperm).
    rewrite <- (firstn_skipn k (sorted (latencies_ms m))) at 1.
    rewrite filter_app, length_app,
      (filter_all_length (fun y => F64.leb x y) _ Hhi), length_skipn.
    rewrite sorted_length. lia.
Qed.

(** Twenty calls that took 20, 19, ..., 1 milliseconds: the p95 is 19 ms,
    which nineteen of the latencies do not exceed. *)
Lemma p95_bounds_the_log_witness :
  exists s x,
    snapshot (record_all
                (map (fun z => (true, F64.of_int z))
                   [20; 19; 18; 17; 16; 15; 14; 13; 12; 11;
                    10; 9; 8; 7; 6; 5; 4; 3; 2; 1])
                Metrics_new) = inr s /\
    snap_p95_latency_ms s = Some x /\
    19 <= Z.of_nat (List.length
                      (filter (fun y => F64.leb y x)
                         (map F64.of_int
                            [20; 19; 18; 17; 16; 15; 14; 13; 12; 11;
                             10; 9; 8; 7; 6; 5; 4; 3; 2; 1]))).
Proof.
  destruct (p95_bounds_the_log
              (record_all
                 (map (fun z => (true, F64.of_int z))
                    [20; 19; 18; 17; 16; 15; 14; 13; 12; 11;
                     10; 9; 8; 7; 6; 5; 4; 3; 2; 1])
                 Metrics_new)) as (s & x & Hs & Hp & _ & Hle & _).
  - vm_compute. split; discriminate.
  - vm_compute. repeat constructor.
  - exists s, x. split; [exact Hs|]. split; [exact Hp|]. exact Hle.
Defined.

(** ** A score that is not a finite number *)

Lemma not_finite_not_in_range (s : float) :
  F64.is_finite s = false -> in_range s = false.
Proof.
  destruct s as [b|[]| |b m e]; try discriminate; intros _; vm_compute; reflexivity.
Qed.

(** A reply of status 200 whose score converts to a NaN or to an infinity
    is accepted by the call: it is recorded as a success and the score is
    returned with the warning on the range. [api_score] then raises: the
    constructor of its response refuses the score with a [ValueError], so
    no response is returned, although the call is counted. *)
Theorem non_finite_score_raises (env : Env) (req : ScoreRequest) (w : World)
  (r : Response) (kv : list (string * json)) (v : json) (s : float) :
  sent env (score_service_url req) (score_text req) w = Responded r ->
  r_status_code r = 200 ->
  r_json r = inr (JDict kv) ->
  dict_get "score" kv = Some v ->
  py_float env v = inr s ->
  F64.is_finite s = false ->
  let w' := world_after (score_service_url req) (score_text req) w
              (record (metrics w) true (latency_at env w 1)) 2 in
  call_external_service env (score_service_url req) (score_text req) w =
  (inr (Some s,
        {| info_latency_ms := latency_at env w 1;
           info_error := None;
           info_warning := Some [Lit "Score "; FmtFloat s;
                                 Lit " is outside expected range [-5, 5]."];
           info_endpoint := endpoint_of (score_service_url req) |}), w') /\
  exists e,
    api_score env req w = (inl e, w') /\ exn_type e = "ValueError"%string.
Proof.
  intros Hs Hc Hj Hd Hf Hn w'.
  pose proof (call_scored env _ _ w r kv v s Hs Hc Hj Hd Hf) as Hcall.
  rewrite (not_finite_not_in_range s Hn) in Hcall.
  split; [exact Hcall|].
  rewrite (api_score_unfold env req w _ _ _ Hcall).
  cbv beta iota. cbn [info_latency_ms info_warning].
  destruct (JSONResponse_init_raises 200
              (ScorePayload s (score_to_label s) (latency_at env w 1)
                 (Some [Lit "Score "; FmtFloat s;
                        Lit " is outside expected range [-5, 5]."])) s)
    as (e & -> & He); [left; reflexivity | exact Hn |].
  exists e. split; [reflexivity | exact He].
Qed.

(** The service answers [{"score": NaN}], which [json] reads as a float:
    the call is counted as a success and [api_score] raises. *)
Lemma non_finite_score_raises_witness :
  exists e w',
    api_score (env_replying (Responded reply_200_score_nan))
      {| score_service_url := "http://localhost:8000";
         score_text := "Overall fine, nothing special." |}
      World_new = (inl e, w') /\
    exn_type e = "ValueError"%string /\
    success_requests (metrics w') = 1.
Proof.
  destruct (non_finite_score_raises
              (env_replying (Responded reply_200_score_nan))
              {| score_service_url := "http://localhost:8000";
                 score_text := "Overall fine, nothing special." |}
              World_new reply_200_score_nan
              [("score", JFloat S754_nan)] (JFloat S754_nan) S754_nan
              eq_refl eq_refl eq_refl eq_refl eq_refl eq_refl)
    as (_ & e & He & Ht).
  exists e. eexists. split; [exact He|]. split; [exact Ht | reflexivity].
Defined.

(** The calls of a run are determined by the state it starts from. *)
Lemma calls_run_functional (env : Env) (url : string) (texts : list string)
  (w w1 w2 : World) (ps1 ps2 : list (option float * Info)) :
  calls_run env url texts w ps1 w1 -> calls_run env url texts w ps2 w2 ->
  ps1 = ps2 /\ w1 = w2.
Proof.
  intros H1. revert ps2 w2.
  induction H1 as [w|text texts w wa wb p ps Hcall _ IH]; intros ps2 w2 H2;
    inversion H2 as [|? ? ? wa' ? p' ps' Hcall' Hrest]; subst.
  - split; reflexivity.
  - rewrite Hcall in Hcall'. injection Hcall' as <- <-.
    destruct (IH _ _ Hrest) as [<- <-]. split; reflexivity.
Qed.

Lemma rows_of_floats (items : list (list string)) (ps : list (option float * Info))
  (s : float) :
  List.length ps = List.length items ->
  Exists (fun p => fst p = Some s) ps ->
  In s (flat_map row_floats (rows_of items ps)).
Proof.
  intros Hlen Hex. revert items Hlen.
  induction Hex as [p ps Hp|p ps _ IH]; intros [|item items] Hlen;
    try discriminate Hlen; rewrite rows_of_cons; cbn [flat_map]; apply in_or_app.
  - left. unfold row_floats, row_of. cbn [row_score]. rewrite Hp. left. reflexivity.
  - right. apply IH. injection Hlen as Hlen. exact Hlen.
Qed.

(** A batch over valid items in which a call returns a score that is a NaN
    or an infinity is not answered: every call of the batch is made and
    recorded, then the constructor of the response raises [ValueError]. *)
Theorem batch_with_non_finite_score_raises (env : Env) (req : BatchRequest)
  (w w' : World) (ps : list (option float * Info)) (s : float) :
  Forall (fun item => valid_item item = true) (dataset req) ->
  calls_run env (service_url req) (map text_of (dataset req)) w ps w' ->
  Exists (fun p => fst p = Some s) ps ->
  F64.is_finite s = false ->
  exists e,
    api_batch env req w = (inl e, w') /\ exn_type e = "ValueError"%string.
Proof.
  intros Hv Hrun Hex Hs.
  destruct (api_batch_valid env req w Hv)
    as (ps0 & w0 & accuracy & avg & Hrun0 & Hbatch & _).
  destruct (calls_run_functional _ _ _ _ _ _ _ _ Hrun0 Hrun) as [-> ->].
  pose proof (calls_run_length _ _ _ _ _ _ Hrun) as Hlen.
  rewrite length_map in Hlen.
  destruct (JSONResponse_init_raises 200
              (BatchPayload (Z.of_nat (List.length (dataset req)))
                 (count_rows_ok (rows_of (dataset req) ps)) accuracy avg
                 (rows_of (dataset req) ps)) s) as (e & He & Ht).
  - cbn [content_floats]. right. right. apply rows_of_floats; assumption.
  - exact Hs.
  - exists e. rewrite Hbatch, He. split; [reflexivity | exact Ht].
Qed.

(** A batch of two items: the first call times out, the second is answered
    [{"score": NaN}]. Both calls are made and recorded, and the batch
    raises. *)
Lemma batch_with_non_finite_score_raises_witness :
  exists e w',
    api_batch env_timeout_then_nan
      {| service_url := "http://localhost:8000"; dataset := two_items |}
      World_new = (inl e, w') /\
    exn_type e = "ValueError"%string /\
    total_requests (metrics w') = 2 /\
    success_requests (metrics w') = 1.
Proof.
  eassert (Hrun : calls_run env_timeout_then_nan "http://localhost:8000"
                    (map text_of two_items) World_new _ _).
  { econstructor; [vm_compute; reflexivity|].
    econstructor; [vm_compute; reflexivity|]. constructor. }
  destruct (batch_with_non_finite_score_raises env_timeout_then_nan
              {| service_url := "http://localhost:8000"; dataset := two_items |}
              _ _ _ S754_nan ltac:(repeat constructor) Hrun)
    as (e & He & Ht).
  - apply Exists_cons_tl, Exists_cons_hd. reflexivity.
  - reflexivity.
  - exists e. eexists. split; [exact He|]. split; [exact Ht|].
    split; reflexivity.
Defined.

(** ** Latencies under a clock that does not go back *)

(** What holds of the latency between the first reading of a call and each
    later one holds of the latency the call reports and of every latency
    it logs. *)
Lemma call_latencies (Q : float -> Prop) (env : Env) (url text : string)
  (w w1 : World) (p : option float * Info) :
  call_external_service env url text w = (inr p, w1) ->
  (forall k, (1 <= k)%nat -> (k + ticks w < ticks w1)%nat ->
             Q (latency_at env w k)) ->
  Q (info_latency_ms (snd p)) /\
  (Forall Q (latencies_ms (metrics w)) -> Forall Q (latencies_ms (metrics w1))) /\
  (ticks w <= ticks w1)%nat.
Proof.
  intros Hcall HQ.
  destruct (call_external_service_returns env url text w)
    as (score & info & w' & Hcall' & _ & _ & Hm & Hl & _).
  rewrite Hcall in Hcall'. injection Hcall' as -> ->. cbn [snd].
  assert (H1 : (ticks w' = 2 + ticks w \/ ticks w' = 3 + ticks w)%nat)
    by (destruct Hl as [[_ Ht]|[_ Ht]]; lia).
  assert (Hi : Q (info_latency_ms info)).
  { destruct Hl as [[-> Ht]|[-> Ht]]; apply HQ; lia. }
  split; [exact Hi|]. split; [|lia]. intros Hlog.
  destruct (keyless_without_score (sent env url text w)).
  - destruct Hm as [_ ->]. cbn [record latencies_ms].
    repeat (apply Forall_app; split); try assumption.
    + repeat constructor. apply HQ; lia.
    + repeat constructor. exact Hi.
  - rewrite Hm. cbn [record latencies_ms].
    apply Forall_app. split; [assumption|]. repeat constructor. exact Hi.
Qed.

(** Over a run of calls during which the clock reads proper finite doubles
    and does not go back, no reported latency is below zero, and none that
    is logged is. *)
Theorem latencies_are_not_negative (env : Env) (url : string)
  (texts : list string) (w w' : World) (ps : list (option float * Info)) :
  calls_run env url texts w ps w' ->
  (forall k, (ticks w <= k < ticks w')%nat ->
             F64.is_finite (perf_counter_at env k) = true /\
             valid_binary 53 1024 (perf_counter_at env k) = true) ->
  (forall i j, (ticks w <= i)%nat -> (i <= j)%nat -> (j < ticks w')%nat ->
               F64.leb (perf_counter_at env i) (perf_counter_at env j) = true) ->
  Forall (fun p => F64.leb F64.zero (info_latency_ms (snd p)) = true) ps /\
  (Forall (fun x => F64.leb F64.zero x = true) (latencies_ms (metrics w)) ->
   Forall (fun x => F64.leb F64.zero x = true) (latencies_ms (metrics w'))).
Proof.
  induction 1 as [w|text texts w w1 w2 p ps Hcall Hrun IH]; intros Hfin Hmono.
  - split; [constructor | auto].
  - pose proof (calls_run_ticks _ _ _ _ _ _ Hrun) as Ht.
    destruct (call_latencies (fun x => F64.leb F64.zero x = true)
                env url text w w1 p Hcall) as (Hp & Hlog1 & Ht1).
    { intros k Hk1 Hk2. unfold latency_at.
      apply elapsed_ms_not_negative;
        try (apply Hfin; lia); apply Hmono; lia. }
    destruct IH as [IHp IHlog].
    { intros k Hk. apply Hfin. lia. }
    { intros i j Hi Hij Hj. apply Hmono; lia. }
    split; [constructor; assumption | auto].
Qed.

(** Two calls from the initial state under the clock that advances by one
    second per reading: both report a latency that is not below zero. *)
Lemma latencies_are_not_negative_witness :
  exists ps w',
    calls_run (env_replying (Responded reply_200_score_2)) "http://localhost:8000"
      ["Great course, learned a lot."; "Overall fine, nothing special."]
      World_new ps w' /\
    Forall (fun p => F64.leb F64.zero (info_latency_ms (snd p)) = true) ps.
Proof.
  eassert (Hrun : calls_run (env_replying (Responded reply_200_score_2))
                    "http://localhost:8000"
                    ["Great course, learned a lot."; "Overall fine, nothing special."]
                    World_new _ _).
  { econstructor; [vm_compute; reflexivity|].
    econstructor; [vm_compute; reflexivity|]. constructor. }
  do 2 eexists. split; [exact Hrun|].
  apply (latencies_are_not_negative _ _ _ _ _ _ Hrun).
  - intros k Hk. cbn [ticks] in Hk.
    do 4 (destruct k as [|k]; [split; reflexivity|]). lia.
  - intros i j Hi Hij Hj. cbn [ticks] in Hj.
    do 4 (destruct j as [|j];
          [do 4 (destruct i as [|i]; [first [reflexivity | lia]|]); lia|]).
    lia.
Defined.

(** ** The accuracy of a batch *)




